(** * ADT Pulse integration: update coordinator and alarm control panel

    A shallow embedding of
      - custom_components/adtpulse/coordinator.py
          (class ADTPulseDataUpdateCoordinator), and
      - custom_components/adtpulse/alarm_control_panel.py
          (class ADTPulseAlarm),
    together with the properties of the fan-out, of the update loop and of
    the arm/disarm command driver.

    Python objects are mutated in place and exceptions do not roll mutations
    back, so effectful methods are functions [S -> S * outcome A]: the state
    that comes out is the state at the moment the method returns or raises. *)

From stdpp Require Import gmap strings list pretty.

Open Scope string_scope.
Open Scope list_scope.

(** ** Exceptions *)

(** The exception classes the two modules raise or catch.  For the update
    loop an exception stands for the first [except] clause it matches. *)
Inductive exception : Type :=
| PulseLoginException
| PulseExceptionWithRetry (retry_time : option Z)
| PulseExceptionWithBackoff (backoff_interval : Z)
| CancelledError
| KeyError (key : string)
| HomeAssistantError (msg : string)
| OtherException (name : string).

Inductive outcome (A : Type) : Type :=
| Ok (a : A)
| Raise (e : exception).
Arguments Ok {A} a.
Arguments Raise {A} e.

(** ** The state-and-exception monad *)

Definition M (S A : Type) : Type := S -> S * outcome A.

Global Instance M_ret {S} : MRet (M S) := fun A a s => (s, Ok a).

Global Instance M_bind {S} : MBind (M S) := fun A B f m s =>
  match m s with
  | (s', Ok a) => f a s'
  | (s', Raise e) => (s', Raise e)
  end.

Definition raise {S A} (e : exception) : M S A := fun s => (s, Raise e).
Definition get {S} : M S S := fun s => (s, Ok s).
Definition modify {S} (f : S -> S) : M S unit := fun s => (f s, Ok tt).

(** [when b m]: a Python [if b: m] with no [else]. *)
Definition when {S} (b : bool) (m : M S unit) : M S unit :=
  if b then m else mret tt.

(** ** alarm_control_panel.py *)

Module AlarmPanel.

(** homeassistant.components.alarm_control_panel.AlarmControlPanelState,
    a StrEnum. *)
Inductive AlarmControlPanelState : Type :=
| DISARMED | ARMED_HOME | ARMED_AWAY | ARMED_NIGHT | ARMED_VACATION
| ARMED_CUSTOM_BYPASS | PENDING | ARMING | DISARMING | TRIGGERED.

Global Instance AlarmControlPanelState_eq_dec : EqDecision AlarmControlPanelState.
Proof. solve_decision. Defined.

(** The string a StrEnum member compares equal to and formats as. *)
Definition value (s : AlarmControlPanelState) : string :=
  match s with
  | DISARMED => "disarmed"
  | ARMED_HOME => "armed_home"
  | ARMED_AWAY => "armed_away"
  | ARMED_NIGHT => "armed_night"
  | ARMED_VACATION => "armed_vacation"
  | ARMED_CUSTOM_BYPASS => "armed_custom_bypass"
  | PENDING => "pending"
  | ARMING => "arming"
  | DISARMING => "disarming"
  | TRIGGERED => "triggered"
  end.

(** [f"{x}"] for [x : AlarmControlPanelState | None]. *)
Definition format (x : option AlarmControlPanelState) : string :=
  match x with
  | Some s => value s
  | None => "None"
  end.

(** The remote panel status read from [self._alarm.status]: the six
    pyadtpulse constants ALARM_MAP has a key for, or any other value. *)
Inductive ADTAlarmStatus : Type :=
| ADT_ALARM_OFF | ADT_ALARM_AWAY | ADT_ALARM_HOME | ADT_ALARM_NIGHT
| ADT_ALARM_ARMING | ADT_ALARM_DISARMING
| ADT_ALARM_OTHER (raw : string).

(** [ALARM_MAP.get(status)] *)
Definition ALARM_MAP_get (status : ADTAlarmStatus) : option AlarmControlPanelState :=
  match status with
  | ADT_ALARM_ARMING => Some ARMING
  | ADT_ALARM_AWAY => Some ARMED_AWAY
  | ADT_ALARM_DISARMING => Some DISARMING
  | ADT_ALARM_HOME => Some ARMED_HOME
  | ADT_ALARM_OFF => Some DISARMED
  | ADT_ALARM_NIGHT => Some ARMED_NIGHT
  | ADT_ALARM_OTHER _ => None
  end.

Definition FORCE_ARM : string := "force arm".
Definition ARM_ERROR_MESSAGE : string :=
  "Pulse system cannot be armed due to opened/tripped zone - use " +:+ FORCE_ARM.

(** The coroutines of [self._site] the commands hand to
    [_perform_alarm_action]. *)
Inductive SiteCall : Type :=
| async_disarm
| async_arm_home (force_arm : bool)
| async_arm_away (force_arm : bool)
| async_arm_night.

(** What the entity reads from the pyadtpulse site.  [can_be_armed] is the
    value of [utils.system_can_be_armed(self._site)] (utils.py is not part of
    the sources at hand; the function is taken by its boolean result: false
    when a zone is opened or tripped). *)
Record ADTPulseSite : Type := {
  status : ADTAlarmStatus;          (* self._alarm.status *)
  is_online : bool;                 (* self._gateway.is_online *)
  can_be_armed : bool               (* system_can_be_armed(self._site) *)
}.

(** What the entity does to the outside, in order. *)
Inductive event : Type :=
| WriteHAState (alarm_state : option AlarmControlPanelState) (assumed_state : bool)
| Await (call : SiteCall)
| LogWarning (msg : string).

Record ADTPulseAlarm : Type := {
  _assumed_state : option AlarmControlPanelState;
  _site : ADTPulseSite;
  journal : list event
}.

Definition set_assumed_state (v : option AlarmControlPanelState) (p : ADTPulseAlarm)
  : ADTPulseAlarm :=
  {| _assumed_state := v; _site := _site p; journal := journal p |}.

Definition record (e : event) (p : ADTPulseAlarm) : ADTPulseAlarm :=
  {| _assumed_state := _assumed_state p; _site := _site p;
     journal := journal p ++ [e] |}.

(** property [alarm_state] *)
Definition alarm_state (p : ADTPulseAlarm) : option AlarmControlPanelState :=
  match _assumed_state p with
  | Some s => Some s
  | None => ALARM_MAP_get (status (_site p))
  end.

(** property [assumed_state] *)
Definition assumed_state (p : ADTPulseAlarm) : bool :=
  bool_decide (_assumed_state p <> None).

(** [self.async_write_ha_state()]: the host reads the entity's properties
    and publishes them. *)
Definition async_write_ha_state : M ADTPulseAlarm unit :=
  fun p => (record (WriteHAState (alarm_state p) (assumed_state p)) p, Ok tt).

Definition logger_warning (msg : string) : M ADTPulseAlarm unit :=
  modify (record (LogWarning msg)).

(** The entity's command operations: [async_alarm_disarm],
    [async_alarm_arm_home], [async_alarm_arm_away],
    [async_alarm_arm_custom_bypass] (the force_away service),
    [async_alarm_arm_night] and [async_alarm_arm_force_stay] (the force_stay
    service). *)
Inductive Command : Type :=
| Disarm | ArmHome | ArmAway | ArmCustomBypass | ArmNight | ArmForceStay.

Global Instance Command_eq_dec : EqDecision Command.
Proof. solve_decision. Defined.

(** The [action] argument each command passes to [_perform_alarm_action]. *)
Definition target (cmd : Command) : AlarmControlPanelState :=
  match cmd with
  | Disarm => DISARMED
  | ArmHome => ARMED_HOME
  | ArmAway => ARMED_AWAY
  | ArmCustomBypass => ARMED_CUSTOM_BYPASS
  | ArmNight => ARMED_NIGHT
  | ArmForceStay => ARMED_HOME
  end.

(** The [arm_disarm_func] argument each command passes. *)
Definition coroutine (cmd : Command) : SiteCall :=
  match cmd with
  | Disarm => async_disarm
  | ArmHome => async_arm_home false
  | ArmAway => async_arm_away false
  | ArmCustomBypass => async_arm_away true
  | ArmNight => async_arm_night
  | ArmForceStay => async_arm_home true
  end.

(** The commands that ask the site to force the arming. *)
Definition bypass (cmd : Command) : bool :=
  match cmd with
  | ArmCustomBypass | ArmForceStay => true
  | _ => false
  end.

(** The transient marker for the direction of a request. *)
Definition transient (cmd : Command) : AlarmControlPanelState :=
  match cmd with
  | Disarm => DISARMING
  | _ => ARMING
  end.

(** The site calls among a list of events. *)
Definition awaited (evs : list event) : list SiteCall :=
  flat_map (fun e => match e with Await c => [c] | _ => [] end) evs.

Section Commands.

(** The pyadtpulse site: what awaiting one of its coroutines returns or
    raises, and what the site looks like afterwards. *)
Variable site : SiteCall -> ADTPulseSite -> ADTPulseSite * outcome bool.

(** [await arm_disarm_func] *)
Definition await (call : SiteCall) : M ADTPulseAlarm bool := fun p =>
  let '(s', r) := site call (_site p) in
  ({| _assumed_state := _assumed_state p; _site := s';
      journal := journal p ++ [Await call] |}, r).

Definition _check_if_system_armable (new_state : AlarmControlPanelState)
  : M ADTPulseAlarm unit :=
  p ← get;
  if bool_decide (alarm_state p <> Some DISARMED) then
    raise (HomeAssistantError
             ("Cannot set alarm to " +:+ value new_state +:+ " "
              +:+ "because currently set to " +:+ format (alarm_state p)))
  else if negb (String.eqb (value new_state) FORCE_ARM)
          && negb (can_be_armed (_site p)) then
    raise (HomeAssistantError ARM_ERROR_MESSAGE)
  else mret tt.

Definition _perform_alarm_action (arm_disarm_func : SiteCall)
    (action : AlarmControlPanelState) : M ADTPulseAlarm unit :=
  when (bool_decide (action <> DISARMED)) (_check_if_system_armable action);;
  p ← get;
  if bool_decide (alarm_state p = Some action) then
    logger_warning "Attempting to set alarm to same state, ignoring"
  else
    (if negb (is_online (_site p)) then
       modify (set_assumed_state (Some action))
     else if bool_decide (action = DISARMED) then
       modify (set_assumed_state (Some DISARMING))
     else
       modify (set_assumed_state (Some ARMING)));;
    async_write_ha_state;;
    result ← await arm_disarm_func;
    when (negb result)
      (logger_warning ("Could not " +:+ value action +:+ " ADT Pulse alarm"));;
    modify (set_assumed_state None);;
    async_write_ha_state;;
    when (negb result)
      (raise (HomeAssistantError
                ("Could not set alarm status to " +:+ value action))).

Definition async_alarm_disarm : M ADTPulseAlarm unit :=
  _perform_alarm_action async_disarm DISARMED.

Definition async_alarm_arm_home : M ADTPulseAlarm unit :=
  _perform_alarm_action (async_arm_home false) ARMED_HOME.

Definition async_alarm_arm_away : M ADTPulseAlarm unit :=
  _perform_alarm_action (async_arm_away false) ARMED_AWAY.

Definition async_alarm_arm_custom_bypass : M ADTPulseAlarm unit :=
  _perform_alarm_action (async_arm_away true) ARMED_CUSTOM_BYPASS.

Definition async_alarm_arm_night : M ADTPulseAlarm unit :=
  _perform_alarm_action async_arm_night ARMED_NIGHT.

Definition async_alarm_arm_force_stay : M ADTPulseAlarm unit :=
  _perform_alarm_action (async_arm_home true) ARMED_HOME.

(** The six command operations under one name each. *)
Definition run (cmd : Command) : M ADTPulseAlarm unit :=
  match cmd with
  | Disarm => async_alarm_disarm
  | ArmHome => async_alarm_arm_home
  | ArmAway => async_alarm_arm_away
  | ArmCustomBypass => async_alarm_arm_custom_bypass
  | ArmNight => async_alarm_arm_night
  | ArmForceStay => async_alarm_arm_force_stay
  end.

End Commands.

(** The Assumed State a command holds while its site call is awaited: the
    target itself when the gateway is offline, the transient marker
    otherwise. *)
Definition in_flight (cmd : Command) (p : ADTPulseAlarm) : AlarmControlPanelState :=
  if is_online (_site p) then transient cmd else target cmd.

(** A command gets past the precondition check (not run for disarm) and
    past the same-state check. *)
Definition checks_pass (cmd : Command) (p : ADTPulseAlarm) : Prop :=
  (cmd = Disarm \/ snd (_check_if_system_armable (target cmd) p) = Ok tt)
  /\ alarm_state p <> Some (target cmd).

(** *** Scenarios *)

(** Sites whose calls all succeed, are all rejected, or all raise. *)
Definition accepting : SiteCall -> ADTPulseSite -> ADTPulseSite * outcome bool :=
  fun _ s => (s, Ok true).
Definition rejecting : SiteCall -> ADTPulseSite -> ADTPulseSite * outcome bool :=
  fun _ s => (s, Ok false).
Definition failing (e : exception)
  : SiteCall -> ADTPulseSite -> ADTPulseSite * outcome bool :=
  fun _ s => (s, Raise e).

(** A freshly set up entity: no Assumed State, nothing done yet. *)
Definition fresh (st : ADTAlarmStatus) (online armable : bool) : ADTPulseAlarm :=
  {| _assumed_state := None;
     _site := {| status := st; is_online := online; can_be_armed := armable |};
     journal := [] |}.

(** The entity after a disarm whose site call raised while the gateway was
    offline and the panel armed away. *)
Definition after_failed_disarm : ADTPulseAlarm :=
  fst (run (failing (OtherException "TimeoutError")) Disarm
         (fresh ADT_ALARM_AWAY false true)).

End AlarmPanel.

(** ** coordinator.py *)

Module Coordinator.

(** A listener callback, known by its identity: calling it is recorded in
    the journal and has no effect on the coordinator itself. *)
Definition CALLBACK_TYPE : Type := nat.

(** What [wait_for_update()] returns: [tuple[bool, set[int]]]. *)
Definition Snapshot : Type := bool * gset Z.

Definition ALARM_CONTEXT : string := "Alarm".
Definition ZONE_CONTEXT_PREFIX : string := "Zone ".
Definition ZONE_TROUBLE_PREFIX : string := " Trouble".
Definition CONNECTION_STATUS_CONTEXT : string := "ConnectionStatus".
Definition NEXT_REFRESH_CONTEXT : string := "NextRefresh".

(** What the coordinator does to the outside, in order.  [FanOut d] marks
    an entry into [async_update_listeners] with [self.data = d]. *)
Inductive event : Type :=
| FanOut (d : option Snapshot)
| Call (context : string) (update_callback : CALLBACK_TYPE)
| StartReauth.

(** The attributes of the coordinator the two modules touch.
    [_listeners] is the registry of the DataUpdateCoordinator base class: a
    dict keyed by the handle made at each registration, kept here as the
    list of its values in insertion order.  [_listener_dictionary] is the
    subclass's own [dict[str, CALLBACK_TYPE]]. *)
Record ADTPulseDataUpdateCoordinator : Type := {
  data : option Snapshot;
  last_update_success : bool;
  last_exception : option exception;
  _listeners : list (CALLBACK_TYPE * string);
  _listener_dictionary : gmap string CALLBACK_TYPE;
  _shutdown_requested : bool;
  hass_is_stopping : bool;            (* self.hass.is_stopping *)
  config_entry : bool;                (* truth value of self.config_entry *)
  journal : list event
}.

Definition set_data (v : option Snapshot) (c : ADTPulseDataUpdateCoordinator) :=
  {| data := v; last_update_success := last_update_success c;
     last_exception := last_exception c; _listeners := _listeners c;
     _listener_dictionary := _listener_dictionary c;
     _shutdown_requested := _shutdown_requested c;
     hass_is_stopping := hass_is_stopping c; config_entry := config_entry c;
     journal := journal c |}.

Definition set_last_update_success (v : bool) (c : ADTPulseDataUpdateCoordinator) :=
  {| data := data c; last_update_success := v;
     last_exception := last_exception c; _listeners := _listeners c;
     _listener_dictionary := _listener_dictionary c;
     _shutdown_requested := _shutdown_requested c;
     hass_is_stopping := hass_is_stopping c; config_entry := config_entry c;
     journal := journal c |}.

Definition set_last_exception (v : option exception) (c : ADTPulseDataUpdateCoordinator) :=
  {| data := data c; last_update_success := last_update_success c;
     last_exception := v; _listeners := _listeners c;
     _listener_dictionary := _listener_dictionary c;
     _shutdown_requested := _shutdown_requested c;
     hass_is_stopping := hass_is_stopping c; config_entry := config_entry c;
     journal := journal c |}.

Definition set_listeners (v : list (CALLBACK_TYPE * string))
    (c : ADTPulseDataUpdateCoordinator) :=
  {| data := data c; last_update_success := last_update_success c;
     last_exception := last_exception c; _listeners := v;
     _listener_dictionary := _listener_dictionary c;
     _shutdown_requested := _shutdown_requested c;
     hass_is_stopping := hass_is_stopping c; config_entry := config_entry c;
     journal := journal c |}.

Definition set_listener_dictionary (v : gmap string CALLBACK_TYPE)
    (c : ADTPulseDataUpdateCoordinator) :=
  {| data := data c; last_update_success := last_update_success c;
     last_exception := last_exception c; _listeners := _listeners c;
     _listener_dictionary := v;
     _shutdown_requested := _shutdown_requested c;
     hass_is_stopping := hass_is_stopping c; config_entry := config_entry c;
     journal := journal c |}.

Definition log (evs : list event) (c : ADTPulseDataUpdateCoordinator) :=
  {| data := data c; last_update_success := last_update_success c;
     last_exception := last_exception c; _listeners := _listeners c;
     _listener_dictionary := _listener_dictionary c;
     _shutdown_requested := _shutdown_requested c;
     hass_is_stopping := hass_is_stopping c; config_entry := config_entry c;
     journal := journal c ++ evs |}.

(** [__init__]: the base class starts with no data, no error and
    [last_update_success = True]; the subclass adds an empty dictionary. *)
Definition init (has_config_entry : bool) : ADTPulseDataUpdateCoordinator :=
  {| data := None; last_update_success := true; last_exception := None;
     _listeners := []; _listener_dictionary := ∅;
     _shutdown_requested := false; hass_is_stopping := false;
     config_entry := has_config_entry; journal := [] |}.

(** A Python [for x in l: body(x)]. *)
Fixpoint for_each {S A} (l : list A) (body : A -> M S unit) : M S unit :=
  match l with
  | [] => mret tt
  | x :: l' => body x;; for_each l' body
  end.

(** *** The DataUpdateCoordinator base class

    homeassistant.helpers.update_coordinator is a dependency, not part of
    the repository.  The four base methods the subclass relies on are
    written after their upstream definitions; the comment in the [finally]
    clause of [_async_update_data] records two of the facts used
    ([async_set_update_error] notifies listeners on the first error only and
    does not reset [data]).  [update_interval] is not passed to
    [super().__init__], so the refresh timer the base methods would (re)arm
    does not exist and is left out. *)

(** [super().async_add_listener(update_callback, context)]: files the pair
    under a fresh handle and returns the handle (here: its position). *)
Definition super_async_add_listener (update_callback : CALLBACK_TYPE)
    (context : string) : M ADTPulseDataUpdateCoordinator nat :=
  c ← get;
  modify (set_listeners (_listeners c ++ [(update_callback, context)]));;
  mret (length (_listeners c)).

(** [super().async_update_listeners()]: calls every filed callback. *)
Definition super_async_update_listeners : M ADTPulseDataUpdateCoordinator unit :=
  c ← get;
  modify (log (map (fun '(cb, context) => Call context cb) (_listeners c))).

(** *** The subclass *)

(** [context] is one of the topic strings, the key type the dictionary is
    declared with. *)

Definition async_add_listener (update_callback : CALLBACK_TYPE)
    (context : string) : M ADTPulseDataUpdateCoordinator nat :=
  c ← get;
  modify (set_listener_dictionary
            (<[context := update_callback]> (_listener_dictionary c)));;
  super_async_add_listener update_callback context.

(** [self._listener_dictionary[key]()] *)
Definition call_listener (key : string) : M ADTPulseDataUpdateCoordinator unit :=
  c ← get;
  match _listener_dictionary c !! key with
  | Some update_callback => modify (log [Call key update_callback])
  | None => raise (KeyError key)
  end.

(** [str(zones)] is [pretty zones]; a Python set is iterated in an order of
    its own, here the order of [elements]. *)
Definition async_update_listeners : M ADTPulseDataUpdateCoordinator unit :=
  c ← get;
  modify (log [FanOut (data c)]);;
  match data c with
  | None => super_async_update_listeners
  | Some data_to_update =>
      when (fst data_to_update) (call_listener ALARM_CONTEXT);;
      for_each (elements (snd data_to_update)) (fun zones =>
        call_listener (ZONE_CONTEXT_PREFIX +:+ pretty zones);;
        call_listener (ZONE_CONTEXT_PREFIX +:+ pretty zones
                       +:+ ZONE_TROUBLE_PREFIX));;
      for_each [CONNECTION_STATUS_CONTEXT; NEXT_REFRESH_CONTEXT] call_listener
  end.

(** Base class [async_set_update_error]; its [self.async_update_listeners()]
    is the subclass's override. *)
Definition async_set_update_error (err : exception)
  : M ADTPulseDataUpdateCoordinator unit :=
  modify (set_last_exception (Some err));;
  c ← get;
  when (last_update_success c)
    (modify (set_last_update_success false);;
     async_update_listeners).

(** Base class [async_set_updated_data]. *)
Definition async_set_updated_data (d : option Snapshot)
  : M ADTPulseDataUpdateCoordinator unit :=
  modify (set_data d);;
  modify (set_last_update_success true);;
  async_update_listeners.

(** One [await self._adt_pulse.wait_for_update()]. *)
Inductive wait_result : Type :=
| Returns (d : Snapshot)
| Raises (e : exception).

(** How control leaves the [try] statement once [finally] has run. *)
Inductive exit : Type :=
| FallThrough
| ReturnNone
| Reraise (e : exception).

(** How one pass through the loop body ends. *)
Inductive flow : Type := Continue | Return.

(** The [try] body and the [except] clauses: the values of [data] and
    [update_exception] they leave, and the pending exit. *)
Definition try_except (r : wait_result)
  : M ADTPulseDataUpdateCoordinator (option Snapshot * option exception * exit) :=
  match r with
  | Returns d => mret (Some d, None, FallThrough)
  | Raises PulseLoginException =>
      c ← get;
      when (config_entry c) (modify (log [StartReauth]));;
      mret (None, None, ReturnNone)
  | Raises (PulseExceptionWithRetry retry_time) =>
      mret (None, Some (PulseExceptionWithRetry retry_time), FallThrough)
  | Raises (PulseExceptionWithBackoff i) =>
      mret (None, Some (PulseExceptionWithBackoff i), FallThrough)
  | Raises CancelledError => mret (None, None, ReturnNone)
  | Raises ex => mret (None, None, Reraise ex)
  end.

(** The [finally] clause. *)
Definition finally (update_exception : option exception) (d : option Snapshot)
  : M ADTPulseDataUpdateCoordinator unit :=
  match update_exception with
  | Some ex =>
      async_set_update_error ex;;
      modify (set_data None);;
      c ← get;
      when (negb (last_update_success c)) async_update_listeners
  | None =>
      modify (set_last_exception None);;
      async_set_updated_data d
  end.

(** The loop body.  [finally] runs on every way out of the [try]
    statement, the [return]s and the bare [raise] included. *)
Definition iteration (r : wait_result) : M ADTPulseDataUpdateCoordinator flow :=
  '(d, update_exception, pending) ← try_except r;
  finally update_exception d;;
  match pending with
  | FallThrough => mret Continue
  | ReturnNone => mret Return
  | Reraise ex => raise ex
  end.

(** How the background task stands after the given results of
    [wait_for_update]: it returned, it raised, or it is suspended in the
    next [wait_for_update]. *)
Inductive task : Type :=
| Returned
| Raised (e : exception)
| Waiting.

Fixpoint _async_update_data (updates : list wait_result)
    (c : ADTPulseDataUpdateCoordinator) : ADTPulseDataUpdateCoordinator * task :=
  if negb (_shutdown_requested c) && negb (hass_is_stopping c) then
    match updates with
    | [] => (c, Waiting)
    | r :: updates' =>
        match iteration r c with
        | (c', Ok Continue) => _async_update_data updates' c'
        | (c', Ok Return) => (c', Returned)
        | (c', Raise e) => (c', Raised e)
        end
    end
  else (c, Returned).

(** *** Vocabulary of the properties *)

(** The topic keys of zone [z]. *)
Definition zone_context (z : Z) : string := ZONE_CONTEXT_PREFIX +:+ pretty z.
Definition zone_trouble_context (z : Z) : string :=
  ZONE_CONTEXT_PREFIX +:+ pretty z +:+ ZONE_TROUBLE_PREFIX.

(** The topic keys a snapshot names, in the order the fan-out visits them. *)
Definition notified (s : Snapshot) : list string :=
  (if fst s then [ALARM_CONTEXT] else [])
  ++ flat_map (fun z => [zone_context z; zone_trouble_context z]) (elements (snd s))
  ++ [CONNECTION_STATUS_CONTEXT; NEXT_REFRESH_CONTEXT].

(** Every topic the snapshot in [self.data] names has a slot in the
    dictionary. *)
Definition topics_registered (c : ADTPulseDataUpdateCoordinator) : Prop :=
  match data c with
  | None => True
  | Some s => Forall (fun k => is_Some (_listener_dictionary c !! k)) (notified s)
  end.

Global Instance topics_registered_dec c : Decision (topics_registered c).
Proof. unfold topics_registered. destruct (data c); apply _. Defined.

(** The calls made through the dictionary for a list of keys. *)
Definition slot_calls (d : gmap string CALLBACK_TYPE) (keys : list string)
  : list event :=
  flat_map (fun k => match d !! k with
                     | Some cb => [Call k cb]
                     | None => []
                     end) keys.

(** The calls of a full refresh: one per registration the base class holds. *)
Definition registered_calls (c : ADTPulseDataUpdateCoordinator) : list event :=
  map (fun '(cb, context) => Call context cb) (_listeners c).

Definition is_fan_out (e : event) : bool :=
  match e with
  | FanOut _ => true
  | _ => false
  end.

(** How many times [async_update_listeners] was entered. *)
Definition fan_outs (j : list event) : nat := length (List.filter is_fan_out j).

(** The two exception classes the loop retries after. *)
Definition retryable (e : exception) : bool :=
  match e with
  | PulseExceptionWithRetry _ | PulseExceptionWithBackoff _ => true
  | _ => false
  end.

(** A sequence of registrations, oldest first. *)
Definition register_all (regs : list (string * CALLBACK_TYPE))
  : M ADTPulseDataUpdateCoordinator unit :=
  for_each regs (fun '(context, cb) => async_add_listener cb context;; mret tt).

(** The callback registered last for topic [k], if any. *)
Fixpoint latest (k : string) (regs : list (string * CALLBACK_TYPE))
  : option CALLBACK_TYPE :=
  match regs with
  | [] => None
  | (k', cb) :: regs' =>
      match latest k regs' with
      | Some cb' => Some cb'
      | None => if decide (k = k') then Some cb else None
      end
  end.

(** *** Scenarios *)

(** A coordinator with one listener per topic of a site with zone 3. *)
Definition one_zone : ADTPulseDataUpdateCoordinator :=
  fst (register_all [(ALARM_CONTEXT, 1); (zone_context 3, 2);
                     (zone_trouble_context 3, 3);
                     (CONNECTION_STATUS_CONTEXT, 4);
                     (NEXT_REFRESH_CONTEXT, 5)] (init true)).

(** The same after one successful update in which nothing changed. *)
Definition one_zone_updated : ADTPulseDataUpdateCoordinator :=
  fst (iteration (Returns (false, ∅)) one_zone).

(** The same after an update that flags the alarm and zone 3. *)
Definition one_zone_changed : ADTPulseDataUpdateCoordinator :=
  fst (iteration (Returns (true, {[3%Z]})) one_zone).

(** A coordinator on which the alarm topic was registered twice. *)
Definition registered_twice : ADTPulseDataUpdateCoordinator :=
  fst (register_all [(ALARM_CONTEXT, 1); (ALARM_CONTEXT, 2)] (init true)).

(** The alarm topic registered once more after an update that flagged the
    alarm and zone 3. *)
Definition alarm_registered_again : ADTPulseDataUpdateCoordinator :=
  fst (register_all [(ALARM_CONTEXT, 7)] one_zone_changed).

(** Two retryable failures in a row after the successful update. *)
Definition first_failure : ADTPulseDataUpdateCoordinator :=
  fst (iteration (Raises (PulseExceptionWithRetry None)) one_zone_updated).
Definition second_failure : ADTPulseDataUpdateCoordinator :=
  fst (iteration (Raises (PulseExceptionWithBackoff 30)) first_failure).

End Coordinator.

(** ** alarm_control_panel.py: the coordinator callback and command sequences *)

Module AlarmEntity.
Import AlarmPanel.

(** [ALARM_MAP[status]]: the subscript raises KeyError on a status that is
    not a key. *)
Definition ALARM_MAP_getitem (st : ADTAlarmStatus) : outcome AlarmControlPanelState :=
  match st with
  | ADT_ALARM_ARMING => Ok ARMING
  | ADT_ALARM_AWAY => Ok ARMED_AWAY
  | ADT_ALARM_DISARMING => Ok DISARMING
  | ADT_ALARM_HOME => Ok ARMED_HOME
  | ADT_ALARM_OFF => Ok DISARMED
  | ADT_ALARM_NIGHT => Ok ARMED_NIGHT
  | ADT_ALARM_OTHER raw => Raise (KeyError raw)
  end.

(** [_handle_coordinator_update]: the arguments of [logger.debug] are
    evaluated before the call, the subscript among them; then the state is
    written. *)
Definition _handle_coordinator_update : M ADTPulseAlarm unit :=
  p ← get;
  match ALARM_MAP_getitem (status (_site p)) with
  | Ok _ => async_write_ha_state
  | Raise e => raise e
  end.

(** Service calls made one after the other: each call ends by returning or
    by raising to its own caller, and the entity is left as the call left
    it. *)
Fixpoint run_all (site : SiteCall -> ADTPulseSite -> ADTPulseSite * outcome bool)
    (cmds : list Command) (p : ADTPulseAlarm) : ADTPulseAlarm :=
  match cmds with
  | [] => p
  | cmd :: cmds' => run_all site cmds' (fst (run site cmd p))
  end.

(** What a command added to the journal. *)
Definition added (p p' : ADTPulseAlarm) : list event :=
  drop (length (journal p)) (journal p').

(** Whether a command gets as far as its site call: disarm unless the
    resolved state is disarmed already, an arm command when the resolved
    state is disarmed and no zone is opened or tripped. *)
Definition reaches_site (cmd : Command) (p : ADTPulseAlarm) : bool :=
  if decide (cmd = Disarm) then bool_decide (alarm_state p <> Some DISARMED)
  else bool_decide (alarm_state p = Some DISARMED) && can_be_armed (_site p).

(** The states [ALARM_MAP] can produce. *)
Definition mapped_states : list AlarmControlPanelState :=
  [ARMING; ARMED_AWAY; DISARMING; ARMED_HOME; DISARMED; ARMED_NIGHT].

(** A site that arms or disarms as asked and reports success. *)
Definition obeying : SiteCall -> ADTPulseSite -> ADTPulseSite * outcome bool :=
  fun call s =>
    ({| status := match call with
                  | async_disarm => ADT_ALARM_OFF
                  | async_arm_home _ => ADT_ALARM_HOME
                  | async_arm_away _ => ADT_ALARM_AWAY
                  | async_arm_night => ADT_ALARM_NIGHT
                  end;
        is_online := is_online s; can_be_armed := can_be_armed s |}, Ok true).

End AlarmEntity.

(** ** coordinator.py: start and stop *)

Module Lifecycle.
Import Coordinator.

(** The asyncio task behind [self._update_task], as far as [stop] looks at
    it: what [cancelled()] answers and whether [cancel()] was called. *)
Record Task : Type := {
  cancelled : bool;
  cancel_requested : bool
}.

(** The coordinator with its task handle; [background_tasks] counts the
    calls of [config_entry.async_create_background_task]. *)
Record Service : Type := {
  coordinator : ADTPulseDataUpdateCoordinator;
  _update_task : option Task;
  background_tasks : nat
}.

Definition ConfigEntryNotReady : exception := OtherException "ConfigEntryNotReady".

(** [start]: a task object is truthy, so [not self._update_task] is
    [self._update_task is None]. *)
Definition start : M Service unit :=
  i ← get;
  match _update_task i with
  | Some _ => mret tt
  | None =>
      if config_entry (coordinator i) then
        modify (fun i =>
          {| coordinator := coordinator i;
             _update_task := Some {| cancelled := false; cancel_requested := false |};
             background_tasks := S (background_tasks i) |})
      else raise ConfigEntryNotReady
  end.

Section Stop.

(** [await self._update_task]: what the coordinator looks like once the
    task is done, and whether the await returns or raises (the task's own
    exception, or CancelledError when the task ended cancelled). *)
Variable join : Task -> ADTPulseDataUpdateCoordinator ->
                ADTPulseDataUpdateCoordinator * outcome unit.

Definition cancel (t : Task) : Task :=
  {| cancelled := cancelled t; cancel_requested := true |}.

Definition await_task : M Service unit := fun i =>
  match _update_task i with
  | Some t =>
      let '(c', r) := join t (coordinator i) in
      ({| coordinator := c'; _update_task := Some t;
          background_tasks := background_tasks i |}, r)
  | None => (i, Ok tt)
  end.

Definition stop : M Service unit :=
  i ← get;
  match _update_task i with
  | Some t =>
      when (negb (cancelled t))
        (modify (fun i =>
           {| coordinator := coordinator i; _update_task := Some (cancel t);
              background_tasks := background_tasks i |}));;
      await_task;;
      modify (fun i =>
        {| coordinator := coordinator i; _update_task := None;
           background_tasks := background_tasks i |})
  | None => mret tt
  end.

End Stop.

(** Tasks that end by returning, and tasks that end by raising. *)
Definition returning : Task -> ADTPulseDataUpdateCoordinator ->
                       ADTPulseDataUpdateCoordinator * outcome unit :=
  fun _ c => (c, Ok tt).

Definition service (c : ADTPulseDataUpdateCoordinator) : Service :=
  {| coordinator := c; _update_task := None; background_tasks := 0 |}.

End Lifecycle.

(** ** coordinator.py: further vocabulary *)

Module CoordinatorMore.
Import Coordinator.

(** The exceptions the loop has no clause of its own for: they reach
    [except Exception] (or no clause at all) and leave the loop as they
    came. *)
Definition unclassified (e : exception) : bool :=
  match e with
  | KeyError _ | HomeAssistantError _ | OtherException _ => true
  | _ => false
  end.

(** The characters [str] of an integer is made of. *)
Definition numeral_char (a : Ascii.ascii) : bool :=
  existsb (Ascii.eqb a) (String.list_ascii_of_string "0123456789-").

Fixpoint numeral (s : string) : bool :=
  match s with
  | EmptyString => true
  | String a s' => numeral_char a && numeral s'
  end.

(** [c'] differs from [c] in the update bookkeeping only ([data],
    [last_update_success], [last_exception]) and in a journal that has
    grown: the registries, the stop flags and the config entry are the
    same. *)
Definition extends (c c' : ADTPulseDataUpdateCoordinator) : Prop :=
  _listeners c' = _listeners c
  /\ _listener_dictionary c' = _listener_dictionary c
  /\ _shutdown_requested c' = _shutdown_requested c
  /\ hass_is_stopping c' = hass_is_stopping c
  /\ config_entry c' = config_entry c
  /\ exists evs, journal c' = journal c ++ evs.


End CoordinatorMore.

(** * Properties of the alarm control panel *)

Module AlarmPanelProofs.
Import AlarmPanel.

Section Driver.

Variable site : SiteCall -> ADTPulseSite -> ADTPulseSite * outcome bool.

Lemma run_unfold cmd :
  run site cmd = _perform_alarm_action site (coroutine cmd) (target cmd).
Proof. by destruct cmd. Qed.

Lemma target_DISARMED cmd : target cmd = DISARMED <-> cmd = Disarm.
Proof. by destruct cmd. Qed.

(** No member of the enum has the value "force arm": the comparison
    [new_state == FORCE_ARM] is false for every action a command passes. *)
Lemma value_never_FORCE_ARM s : String.eqb (value s) FORCE_ARM = false.
Proof. by destruct s. Qed.

Lemma check_armable_unfold new_state p :
  _check_if_system_armable new_state p =
  (p, if bool_decide (alarm_state p <> Some DISARMED) then
        Raise (HomeAssistantError
                 ("Cannot set alarm to " +:+ value new_state
                  +:+ " because currently set to " +:+ format (alarm_state p)))
      else if can_be_armed (_site p) then Ok tt
      else Raise (HomeAssistantError ARM_ERROR_MESSAGE)).
Proof.
  unfold _check_if_system_armable, mbind, M_bind, get, raise, mret, M_ret.
  rewrite value_never_FORCE_ARM. simpl.
  case_bool_decide; [done|]. by destruct (can_be_armed (_site p)).
Qed.

Lemma perform_conflict cmd p :
  cmd <> Disarm -> alarm_state p <> Some DISARMED ->
  run site cmd p =
  (p, Raise (HomeAssistantError
               ("Cannot set alarm to " +:+ value (target cmd)
                +:+ " because currently set to " +:+ format (alarm_state p)))).
Proof.
  intros Hcmd Hst. rewrite run_unfold.
  unfold _perform_alarm_action, mbind, M_bind, when.
  rewrite bool_decide_true by (by rewrite target_DISARMED).
  rewrite check_armable_unfold. by rewrite bool_decide_true.
Qed.

Lemma perform_not_ready cmd p :
  cmd <> Disarm -> alarm_state p = Some DISARMED ->
  can_be_armed (_site p) = false ->
  run site cmd p = (p, Raise (HomeAssistantError ARM_ERROR_MESSAGE)).
Proof.
  intros Hcmd Hst Hzone. rewrite run_unfold.
  unfold _perform_alarm_action, mbind, M_bind, when.
  rewrite bool_decide_true by (by rewrite target_DISARMED).
  rewrite check_armable_unfold, Hzone.
  by rewrite bool_decide_false by (by intros []).
Qed.

Lemma perform_same_state_disarm p :
  alarm_state p = Some DISARMED ->
  run site Disarm p =
  (record (LogWarning "Attempting to set alarm to same state, ignoring") p, Ok tt).
Proof.
  intros Hst. simpl. unfold async_alarm_disarm, _perform_alarm_action.
  unfold mbind, M_bind, when, get. simpl.
  by rewrite bool_decide_true.
Qed.

(** Past both checks, the driver runs up to the site call and then depends
    on what the site call does. *)
Lemma perform_proceeds cmd p :
  checks_pass cmd p ->
  run site cmd p =
  let x := in_flight cmd p in
  let j := journal p ++ [WriteHAState (Some x) true; Await (coroutine cmd)] in
  match site (coroutine cmd) (_site p) with
  | (s', Raise e) =>
      ({| _assumed_state := Some x; _site := s'; journal := j |}, Raise e)
  | (s', Ok true) =>
      ({| _assumed_state := None; _site := s';
          journal := j ++ [WriteHAState (ALARM_MAP_get (status s')) false] |},
       Ok tt)
  | (s', Ok false) =>
      ({| _assumed_state := None; _site := s';
          journal := j ++ [LogWarning ("Could not " +:+ value (target cmd)
                                        +:+ " ADT Pulse alarm");
                            WriteHAState (ALARM_MAP_get (status s')) false] |},
       Raise (HomeAssistantError
                ("Could not set alarm status to " +:+ value (target cmd))))
  end.
Proof.
  intros [Hpre Hsame]. rewrite run_unfold.
  unfold _perform_alarm_action, mbind, M_bind, when.
  assert ((if bool_decide (target cmd <> DISARMED)
           then _check_if_system_armable (target cmd) else mret tt) p
          = (p, Ok tt)) as ->.
  { destruct Hpre as [-> | Hok]; [done|].
    case_bool_decide; [|done].
    destruct (_check_if_system_armable (target cmd) p) as [p' r] eqn:E.
    rewrite check_armable_unfold in E. simpl in Hok. by simplify_eq. }
  unfold get. rewrite bool_decide_false by done.
  unfold in_flight, await, async_write_ha_state, modify, alarm_state,
    assumed_state, record, set_assumed_state, raise, mret, M_ret.
  destruct (is_online (_site p)); simpl.
  - destruct (decide (cmd = Disarm)) as [-> | Hne]; simpl.
    + destruct (site async_disarm (_site p)) as [s' [[]|e]]; simpl;
        by rewrite <- ?app_assoc.
    + rewrite bool_decide_false by (by rewrite target_DISARMED).
      assert (transient cmd = ARMING) as -> by (by destruct cmd).
      simpl. destruct (site (coroutine cmd) (_site p)) as [s' [[]|e]]; simpl;
        by rewrite <- ?app_assoc.
  - destruct (site (coroutine cmd) (_site p)) as [s' [[]|e]]; simpl;
      by rewrite <- ?app_assoc.
Qed.

End Driver.

(** C1 (what the code does): a bypass command, [async_alarm_arm_custom_bypass]
    or [async_alarm_arm_force_stay], does not skip the opened/tripped-zone
    check.  With the resolved state disarmed and a zone open it fails with
    ARM_ERROR_MESSAGE like its non-bypass sibling, leaves the entity as it
    was and awaits no site call. *)
Theorem bypass_command_fails_on_open_zone site cmd p :
  bypass cmd = true ->
  alarm_state p = Some DISARMED ->
  can_be_armed (_site p) = false ->
  run site cmd p = (p, Raise (HomeAssistantError ARM_ERROR_MESSAGE)).
Proof.
  intros Hb Hst Hzone. apply perform_not_ready; [|done..].
  by intros ->.
Qed.

Lemma bypass_command_fails_on_open_zone_witness :
  run accepting ArmCustomBypass (fresh ADT_ALARM_OFF true false) =
  (fresh ADT_ALARM_OFF true false,
   Raise (HomeAssistantError
            "Pulse system cannot be armed due to opened/tripped zone - use force arm")).
Proof.
  apply (bypass_command_fails_on_open_zone accepting ArmCustomBypass
           (fresh ADT_ALARM_OFF true false)); reflexivity.
Defined.

(** C7: an arm command issued while the resolved state is not disarmed
    fails with the conflicting-state error naming the current state; the
    entity is left exactly as it was, so Assumed State is unchanged and no
    site call is awaited. *)
Theorem arm_command_requires_disarmed site cmd p :
  cmd <> Disarm ->
  alarm_state p <> Some DISARMED ->
  exists p' r,
    run site cmd p = (p', r)
    /\ r = Raise (HomeAssistantError
                    ("Cannot set alarm to " +:+ value (target cmd)
                     +:+ " because currently set to " +:+ format (alarm_state p)))
    /\ _assumed_state p' = _assumed_state p
    /\ journal p' = journal p
    /\ p' = p.
Proof.
  intros Hcmd Hst. exists p. eexists. split; [by apply perform_conflict|done].
Qed.

Lemma arm_command_requires_disarmed_witness :
  exists p' r,
    run accepting ArmHome (fresh ADT_ALARM_AWAY true true) = (p', r)
    /\ r = Raise (HomeAssistantError
                    ("Cannot set alarm to " +:+ value (target ArmHome)
                     +:+ " because currently set to "
                     +:+ format (alarm_state (fresh ADT_ALARM_AWAY true true))))
    /\ _assumed_state p' = _assumed_state (fresh ADT_ALARM_AWAY true true)
    /\ journal p' = journal (fresh ADT_ALARM_AWAY true true)
    /\ p' = fresh ADT_ALARM_AWAY true true.
Proof.
  apply (arm_command_requires_disarmed accepting ArmHome
           (fresh ADT_ALARM_AWAY true true)); [discriminate|vm_compute; discriminate].
Defined.

(** C5 (the claim as worded fails): with the panel armed away, an
    arm-away request, whose target equals the resolved state, is not a silent
    no-op: it raises the conflicting-state error to its caller. *)
Lemma same_state_arm_request_raises :
  alarm_state (fresh ADT_ALARM_AWAY true true) = Some (target ArmAway)
  /\ snd (run accepting ArmAway (fresh ADT_ALARM_AWAY true true)) =
     Raise (HomeAssistantError
              "Cannot set alarm to armed_away because currently set to armed_away").
Proof. by vm_compute. Qed.

(** C5 (amended): a command whose target equals the resolved state awaits
    no site call and leaves Assumed State and the site as they were.  For
    disarm it is a no-op that logs a warning and returns normally; for an arm
    command the precondition check, which runs first, raises the
    conflicting-state error. *)
Theorem same_state_request_is_not_sent site cmd p :
  alarm_state p = Some (target cmd) ->
  exists evs r,
    run site cmd p =
      ({| _assumed_state := _assumed_state p; _site := _site p;
          journal := journal p ++ evs |}, r)
    /\ awaited evs = []
    /\ (cmd = Disarm ->
        evs = [LogWarning "Attempting to set alarm to same state, ignoring"]
        /\ r = Ok tt)
    /\ (cmd <> Disarm ->
        evs = []
        /\ r = Raise (HomeAssistantError
                        ("Cannot set alarm to " +:+ value (target cmd)
                         +:+ " because currently set to " +:+ value (target cmd)))).
Proof.
  intros Hst. destruct (decide (cmd = Disarm)) as [-> | Hne].
  - eexists _, _. split; [by apply perform_same_state_disarm|].
    by repeat split.
  - exists [], (Raise (HomeAssistantError
                         ("Cannot set alarm to " +:+ value (target cmd)
                          +:+ " because currently set to " +:+ value (target cmd)))).
    split.
    + rewrite perform_conflict; [|done|].
      * rewrite Hst, app_nil_r. simpl. by destruct p.
      * rewrite Hst. intros [= Ht]. by apply target_DISARMED in Ht.
    + by repeat split.
Qed.

Lemma same_state_request_is_not_sent_witness :
  exists evs r,
    run accepting Disarm (fresh ADT_ALARM_OFF true true) =
      ({| _assumed_state := None;
          _site := _site (fresh ADT_ALARM_OFF true true);
          journal := [] ++ evs |}, r)
    /\ awaited evs = []
    /\ (Disarm = Disarm ->
        evs = [LogWarning "Attempting to set alarm to same state, ignoring"]
        /\ r = Ok tt)
    /\ (Disarm <> Disarm ->
        evs = []
        /\ r = Raise (HomeAssistantError
                        ("Cannot set alarm to " +:+ value (target Disarm)
                         +:+ " because currently set to " +:+ value (target Disarm)))).
Proof.
  apply (same_state_request_is_not_sent accepting Disarm
           (fresh ADT_ALARM_OFF true true)); reflexivity.
Defined.

(** C6: a command that gets past the precondition and same-state checks
    sets Assumed State to the target itself when the gateway is offline, and
    otherwise to DISARMING for disarm and ARMING for an arm request; that
    state is published (with the assumed-state flag set) and only then is
    the site call awaited. *)
Theorem optimistic_state_published_before_site_call site cmd p :
  checks_pass cmd p ->
  exists rest,
    journal (fst (run site cmd p)) =
    journal p
    ++ WriteHAState
         (Some (if is_online (_site p)
                then (if decide (cmd = Disarm) then DISARMING else ARMING)
                else target cmd)) true
       :: Await (coroutine cmd) :: rest.
Proof.
  intros Hpass. rewrite (perform_proceeds site cmd p Hpass). simpl.
  assert (in_flight cmd p =
          if is_online (_site p)
          then (if decide (cmd = Disarm) then DISARMING else ARMING)
          else target cmd) as ->.
  { unfold in_flight. destruct (is_online (_site p)); [|done].
    by destruct cmd. }
  destruct (site (coroutine cmd) (_site p)) as [s' [[]|e]]; simpl;
    eexists; by rewrite <- ?app_assoc.
Qed.

Lemma optimistic_state_published_before_site_call_witness :
  exists rest,
    journal (fst (run accepting ArmNight (fresh ADT_ALARM_OFF false true))) =
    [] ++ WriteHAState (Some ARMED_NIGHT) true :: Await async_arm_night :: rest.
Proof.
  apply (optimistic_state_published_before_site_call accepting ArmNight
           (fresh ADT_ALARM_OFF false true)).
  split; [right; reflexivity | vm_compute; discriminate].
Defined.

(** C10: when the awaited site call raises instead of returning a boolean,
    the command propagates that exception and Assumed State is not cleared:
    it stays at the transient marker (or, gateway offline, at the target),
    and nothing is published after the site call.  Clearing is therefore
    reached only when the site call returns. *)
Theorem site_exception_leaves_assumed_state site cmd p s' e :
  checks_pass cmd p ->
  site (coroutine cmd) (_site p) = (s', Raise e) ->
  run site cmd p =
  ({| _assumed_state := Some (in_flight cmd p);
      _site := s';
      journal := journal p ++ [WriteHAState (Some (in_flight cmd p)) true;
                               Await (coroutine cmd)] |},
   Raise e).
Proof.
  intros Hpass Hsite. rewrite (perform_proceeds site cmd p Hpass). simpl.
  by rewrite Hsite.
Qed.

Lemma site_exception_leaves_assumed_state_witness :
  run (failing (OtherException "TimeoutError")) ArmAway (fresh ADT_ALARM_OFF true true) =
  ({| _assumed_state := Some ARMING;
      _site := _site (fresh ADT_ALARM_OFF true true);
      journal := [] ++ [WriteHAState (Some ARMING) true;
                        Await (async_arm_away false)] |},
   Raise (OtherException "TimeoutError")).
Proof.
  apply (site_exception_leaves_assumed_state
           (failing (OtherException "TimeoutError")) ArmAway
           (fresh ADT_ALARM_OFF true true)).
  - split; [right; reflexivity | vm_compute; discriminate].
  - reflexivity.
Defined.

(** C3 (the claim as worded fails): after a disarm whose site call raised
    with the gateway offline, Assumed State is DISARMED; a second disarm then
    returns normally through the same-state no-op with Assumed State still
    DISARMED, not absent. *)
Lemma no_op_return_keeps_assumed_state :
  _assumed_state after_failed_disarm = Some DISARMED
  /\ snd (run accepting Disarm after_failed_disarm) = Ok tt
  /\ _assumed_state (fst (run accepting Disarm after_failed_disarm)) = Some DISARMED.
Proof. by vm_compute. Qed.

(** C3 (amended): for every command whose site call returns a boolean,
    Assumed State is absent when the command returns (site call succeeded)
    or raises the command-rejected error (site call failed), and the
    publication of the cleared state is the last thing done before either. *)
Theorem assumed_state_cleared_after_site_result site cmd p s' b :
  checks_pass cmd p ->
  site (coroutine cmd) (_site p) = (s', Ok b) ->
  exists pre,
    run site cmd p =
    ({| _assumed_state := None;
        _site := s';
        journal := journal p ++ pre
                   ++ [WriteHAState (ALARM_MAP_get (status s')) false] |},
     if b then Ok tt
     else Raise (HomeAssistantError
                   ("Could not set alarm status to " +:+ value (target cmd)))).
Proof.
  intros Hpass Hsite. rewrite (perform_proceeds site cmd p Hpass). simpl.
  rewrite Hsite. destruct b.
  - exists [WriteHAState (Some (in_flight cmd p)) true; Await (coroutine cmd)].
    by rewrite <- app_assoc.
  - exists [WriteHAState (Some (in_flight cmd p)) true; Await (coroutine cmd);
            LogWarning ("Could not " +:+ value (target cmd) +:+ " ADT Pulse alarm")].
    by rewrite <- app_assoc.
Qed.

Lemma assumed_state_cleared_after_site_result_witness :
  exists pre,
    run rejecting ArmAway (fresh ADT_ALARM_OFF true true) =
    ({| _assumed_state := None;
        _site := _site (fresh ADT_ALARM_OFF true true);
        journal := [] ++ pre ++ [WriteHAState (Some DISARMED) false] |},
     Raise (HomeAssistantError "Could not set alarm status to armed_away")).
Proof.
  apply (assumed_state_cleared_after_site_result rejecting ArmAway
           (fresh ADT_ALARM_OFF true true)
           (_site (fresh ADT_ALARM_OFF true true)) false).
  - split; [right; reflexivity | vm_compute; discriminate].
  - reflexivity.
Defined.

End AlarmPanelProofs.

(** * Properties of the update coordinator *)

Module CoordinatorProofs.
Import Coordinator.

Ltac step :=
  unfold mbind, M_bind, mret, M_ret, modify, get, raise, when; simpl.

(** ** Journal bookkeeping *)

Lemma log_nil c : log [] c = c.
Proof. destruct c. unfold log. simpl. by rewrite app_nil_r. Qed.

Lemma log_log evs1 evs2 c : log evs2 (log evs1 c) = log (evs1 ++ evs2) c.
Proof. unfold log. simpl. by rewrite app_assoc. Qed.

(** ** Calls through the dictionary *)

Lemma call_listener_registered c k cb :
  _listener_dictionary c !! k = Some cb ->
  call_listener k c = (log [Call k cb] c, Ok tt).
Proof. intros H. unfold call_listener. step. by rewrite H. Qed.

(** An unregistered topic fails loudly. *)
Lemma call_listener_unregistered c k :
  _listener_dictionary c !! k = None ->
  call_listener k c = (c, Raise (KeyError k)).
Proof. intros H. unfold call_listener. step. by rewrite H. Qed.

Lemma for_each_call_listener keys c :
  Forall (fun k => is_Some (_listener_dictionary c !! k)) keys ->
  for_each keys call_listener c =
  (log (slot_calls (_listener_dictionary c) keys) c, Ok tt).
Proof.
  revert c. induction keys as [|k keys IH]; intros c Hreg.
  - simpl. step. by rewrite log_nil.
  - apply Forall_cons in Hreg as [[cb Hk] Hreg]. simpl.
    unfold mbind, M_bind. rewrite (call_listener_registered c k cb Hk).
    rewrite IH by done. simpl. by rewrite Hk, log_log.
Qed.

Lemma for_each_zone zs c :
  Forall (fun k => is_Some (_listener_dictionary c !! k))
    (flat_map (fun z => [zone_context z; zone_trouble_context z]) zs) ->
  for_each zs (fun zones =>
      call_listener (ZONE_CONTEXT_PREFIX +:+ pretty zones);;
      call_listener (ZONE_CONTEXT_PREFIX +:+ pretty zones +:+ ZONE_TROUBLE_PREFIX)) c =
  (log (slot_calls (_listener_dictionary c)
          (flat_map (fun z => [zone_context z; zone_trouble_context z]) zs)) c,
   Ok tt).
Proof.
  revert c. induction zs as [|z zs IH]; intros c Hreg.
  - simpl. step. by rewrite log_nil.
  - cbn [flat_map app] in Hreg.
    apply Forall_cons in Hreg as [[cb1 Hz] Hreg].
    apply Forall_cons in Hreg as [[cb2 Ht] Hreg].
    cbn [for_each]. unfold mbind, M_bind.
    fold (zone_context z). fold (zone_trouble_context z).
    rewrite (call_listener_registered c _ cb1 Hz).
    rewrite (call_listener_registered (log [Call (zone_context z) cb1] c) _ cb2)
      by done.
    rewrite IH by done. cbn [flat_map app slot_calls].
    cbn [_listener_dictionary log]. rewrite Hz, Ht. by rewrite !log_log.
Qed.

(** ** The fan-out *)

Lemma fan_out_full c :
  data c = None ->
  async_update_listeners c = (log (FanOut None :: registered_calls c) c, Ok tt).
Proof.
  intros Hd. unfold async_update_listeners, super_async_update_listeners.
  step. rewrite Hd. simpl. by rewrite log_log.
Qed.

Lemma fan_out_targeted c s :
  data c = Some s ->
  Forall (fun k => is_Some (_listener_dictionary c !! k)) (notified s) ->
  async_update_listeners c =
  (log (FanOut (Some s) :: slot_calls (_listener_dictionary c) (notified s)) c,
   Ok tt).
Proof.
  intros Hd Hreg. unfold async_update_listeners.
  unfold mbind at 1 2, M_bind at 1 2, get, modify. rewrite Hd.
  unfold notified in *. apply Forall_app in Hreg as [Halarm Hreg].
  apply Forall_app in Hreg as [Hzones Hrest].
  set (c0 := log [FanOut (Some s)] c).
  assert (_listener_dictionary c0 = _listener_dictionary c) as Hd0 by done.
  unfold mbind, M_bind.
  assert (when s.1 (call_listener ALARM_CONTEXT) c0 =
          (log (slot_calls (_listener_dictionary c)
                  (if s.1 then [ALARM_CONTEXT] else [])) c0, Ok tt)) as ->.
  { unfold when. destruct (s.1).
    - apply Forall_cons in Halarm as [[cb Hk] _].
      rewrite (call_listener_registered c0 _ cb) by done.
      simpl. by rewrite Hk.
    - simpl. step. by rewrite log_nil. }
  rewrite for_each_zone by done.
  rewrite for_each_call_listener by done.
  unfold c0. rewrite !log_log. cbn [_listener_dictionary log].
  unfold slot_calls. by rewrite !flat_map_app.
Qed.

Lemma elem_of_slot_calls d keys e :
  e ∈ slot_calls d keys <-> exists k cb, e = Call k cb /\ k ∈ keys /\ d !! k = Some cb.
Proof.
  unfold slot_calls. rewrite list_elem_of_In, in_flat_map. split.
  - intros (k & Hk & He). apply list_elem_of_In in Hk.
    destruct (d !! k) as [cb|] eqn:E; [|by destruct He].
    destruct He as [<- | []]. by exists k, cb.
  - intros (k & cb & -> & Hk & Hd). exists k. split.
    + by apply list_elem_of_In.
    + rewrite Hd. by left.
Qed.

Lemma elem_of_notified s k :
  k ∈ notified s <->
  (k = ALARM_CONTEXT /\ s.1 = true)
  \/ (exists z, z ∈ s.2 /\ (k = zone_context z \/ k = zone_trouble_context z))
  \/ k = CONNECTION_STATUS_CONTEXT
  \/ k = NEXT_REFRESH_CONTEXT.
Proof.
  unfold notified. rewrite !elem_of_app. split.
  - intros [Ha | [Hz | Hr]].
    + left. destruct (s.1); [|by apply elem_of_nil in Ha].
      apply list_elem_of_singleton in Ha. by split.
    + right; left. apply list_elem_of_In, in_flat_map in Hz as (z & Hz & Hk).
      exists z. split; [by apply elem_of_elements, list_elem_of_In|].
      destruct Hk as [<- | [<- | []]]; auto.
    + right; right. apply elem_of_cons in Hr as [-> | Hr]; [by left|].
      apply list_elem_of_singleton in Hr. by right.
  - intros [[-> ->] | [(z & Hz & Hk) | Hr]].
    + left. apply list_elem_of_here.
    + right; left. apply list_elem_of_In, in_flat_map. exists z. split.
      * by apply list_elem_of_In, elem_of_elements.
      * destruct Hk as [-> | ->]; simpl; auto.
    + right; right. destruct Hr as [-> | ->].
      * apply list_elem_of_here.
      * apply list_elem_of_further, list_elem_of_here.
Qed.

(** The alarm topic is none of the other topics. *)
Lemma alarm_context_only_alarm s :
  ALARM_CONTEXT ∈ notified s <-> s.1 = true.
Proof.
  rewrite elem_of_notified. split.
  - intros [[_ H] | [(z & _ & [H | H]) | [H | H]]]; done.
  - intros H. by left.
Qed.

(** C4: a fan-out with no snapshot calls every listener the base class
    holds; with a snapshot it calls the alarm listener exactly when the
    alarm-changed flag is set, the zone and zone-trouble listeners of every
    changed zone id, and the connection-status and next-refresh listeners in
    any case, and it calls no other listener.  The topics the snapshot names
    are taken to be registered; an unregistered one raises KeyError
    ([call_listener_unregistered]). *)
Theorem fan_out_calls_listeners_of_changed_topics c :
  topics_registered c ->
  exists calls,
    async_update_listeners c = (log (FanOut (data c) :: calls) c, Ok tt)
    /\ match data c with
       | None =>
           calls = map (fun '(cb, context) => Call context cb) (_listeners c)
       | Some (alarm_changed, changed_zones) =>
           (forall e, e ∈ calls -> exists k cb, e = Call k cb)
           /\ (forall cb, Call ALARM_CONTEXT cb ∈ calls <->
                 alarm_changed = true
                 /\ _listener_dictionary c !! ALARM_CONTEXT = Some cb)
           /\ (forall k cb, Call k cb ∈ calls <->
                 _listener_dictionary c !! k = Some cb
                 /\ ((k = ALARM_CONTEXT /\ alarm_changed = true)
                     \/ (exists z, z ∈ changed_zones
                          /\ (k = zone_context z \/ k = zone_trouble_context z))
                     \/ k = CONNECTION_STATUS_CONTEXT
                     \/ k = NEXT_REFRESH_CONTEXT))
       end.
Proof.
  intros Hreg. destruct (data c) as [[alarm_changed changed_zones]|] eqn:Hd.
  - exists (slot_calls (_listener_dictionary c) (notified (alarm_changed, changed_zones))).
    split.
    { apply fan_out_targeted; [done|]. unfold topics_registered in Hreg.
      by rewrite Hd in Hreg. }
    assert (forall k cb,
      Call k cb ∈ slot_calls (_listener_dictionary c)
                    (notified (alarm_changed, changed_zones)) <->
      k ∈ notified (alarm_changed, changed_zones)
      /\ _listener_dictionary c !! k = Some cb) as Hcall.
    { intros k cb. rewrite elem_of_slot_calls. split.
      - by intros (k' & cb' & [= -> ->] & ? & ?).
      - intros [? ?]. by exists k, cb. }
    split; [|split].
    + intros e He. apply elem_of_slot_calls in He as (k & cb & -> & _).
      by exists k, cb.
    + intros cb. rewrite Hcall, alarm_context_only_alarm. done.
    + intros k cb. rewrite Hcall, elem_of_notified. simpl. tauto.
  - exists (registered_calls c). split; [by apply fan_out_full|done].
Qed.

Lemma fan_out_calls_listeners_of_changed_topics_witness :
  exists calls,
    async_update_listeners one_zone_changed =
      (log (FanOut (data one_zone_changed) :: calls) one_zone_changed, Ok tt)
    /\ match data one_zone_changed with
       | None =>
           calls = map (fun '(cb, context) => Call context cb)
                     (_listeners one_zone_changed)
       | Some (alarm_changed, changed_zones) =>
           (forall e, e ∈ calls -> exists k cb, e = Call k cb)
           /\ (forall cb, Call ALARM_CONTEXT cb ∈ calls <->
                 alarm_changed = true
                 /\ _listener_dictionary one_zone_changed !! ALARM_CONTEXT = Some cb)
           /\ (forall k cb, Call k cb ∈ calls <->
                 _listener_dictionary one_zone_changed !! k = Some cb
                 /\ ((k = ALARM_CONTEXT /\ alarm_changed = true)
                     \/ (exists z, z ∈ changed_zones
                          /\ (k = zone_context z \/ k = zone_trouble_context z))
                     \/ k = CONNECTION_STATUS_CONTEXT
                     \/ k = NEXT_REFRESH_CONTEXT))
       end.
Proof.
  apply (fan_out_calls_listeners_of_changed_topics one_zone_changed).
  apply (bool_decide_unpack _). vm_compute. exact I.
Defined.

(** ** Registration *)

Lemma async_add_listener_unfold cb k c :
  async_add_listener cb k c =
  (set_listeners (_listeners c ++ [(cb, k)])
     (set_listener_dictionary (<[k := cb]> (_listener_dictionary c)) c),
   Ok (length (_listeners c))).
Proof. reflexivity. Qed.

(** A sequence of registrations never fails; it touches the two registries
    only, files every registration with the base class and leaves in each
    slot of the dictionary the callback registered last. *)
Lemma register_all_spec regs : forall c,
  exists c',
    register_all regs c = (c', Ok tt)
    /\ data c' = data c
    /\ journal c' = journal c
    /\ _listeners c' = _listeners c ++ map (fun '(k, cb) => (cb, k)) regs
    /\ forall k, _listener_dictionary c' !! k =
                 match latest k regs with
                 | Some cb => Some cb
                 | None => _listener_dictionary c !! k
                 end.
Proof.
  induction regs as [|[k0 cb0] regs IH]; intros c.
  - exists c. simpl. by rewrite app_nil_r.
  - unfold register_all. cbn [for_each]. fold (register_all regs).
    unfold mbind, M_bind. cbn beta iota. unfold mbind, M_bind.
    rewrite async_add_listener_unfold. unfold mret, M_ret.
    destruct (IH (set_listeners (_listeners c ++ [(cb0, k0)])
                    (set_listener_dictionary
                       (<[k0 := cb0]> (_listener_dictionary c)) c)))
      as (c' & -> & Hd & Hj & Hl & Hdict).
    exists c'. repeat split; try done.
    + rewrite Hl. simpl. by rewrite <- app_assoc.
    + intros k. rewrite Hdict. simpl. destruct (latest k regs); [done|].
      rewrite lookup_insert. by repeat case_decide; simplify_eq.
Qed.

(** C9 (the claim as worded fails): after the alarm topic is registered a
    second time, a fan-out with no snapshot calls both the replaced callback
    and the new one. *)
Lemma full_refresh_calls_replaced_callback :
  data registered_twice = None
  /\ _listener_dictionary registered_twice !! ALARM_CONTEXT = Some 2
  /\ journal (fst (async_update_listeners registered_twice)) =
     [FanOut None; Call ALARM_CONTEXT 1; Call ALARM_CONTEXT 2].
Proof. by vm_compute. Qed.

(** C9 (amended): for every sequence of registrations, the dictionary keeps
    one slot per topic and the slot of a re-registered topic holds the
    callback registered last; a fan-out with a snapshot calls every topic
    the snapshot names through its slot, so a call made for a re-registered
    topic is to the most recently registered callback and never to a
    replaced one.  (The fan-out with no snapshot goes through the base
    class's registry, which keeps every registration.) *)
Theorem targeted_fan_out_calls_latest_registration c regs c' s :
  register_all regs c = (c', Ok tt) ->
  data c = Some s ->
  topics_registered c' ->
  (forall k, is_Some (latest k regs) ->
             _listener_dictionary c' !! k = latest k regs)
  /\ exists calls,
       async_update_listeners c' = (log (FanOut (Some s) :: calls) c', Ok tt)
       /\ (forall k, k ∈ notified s ->
                     exists cb, _listener_dictionary c' !! k = Some cb
                                /\ Call k cb ∈ calls)
       /\ (forall k cb, Call k cb ∈ calls ->
                        _listener_dictionary c' !! k = Some cb)
       /\ (forall k cb, Call k cb ∈ calls -> is_Some (latest k regs) ->
                        latest k regs = Some cb).
Proof.
  intros Hrun Hdata Hreg.
  destruct (register_all_spec regs c) as (c'' & Hrun' & Hd & _ & _ & Hdict).
  rewrite Hrun in Hrun'. injection Hrun' as <-.
  assert (forall k, is_Some (latest k regs) ->
                    _listener_dictionary c' !! k = latest k regs) as Hlatest.
  { intros k [cb Hk]. by rewrite Hdict, Hk. }
  split; [done|].
  unfold topics_registered in Hreg. rewrite Hd, Hdata in Hreg.
  exists (slot_calls (_listener_dictionary c') (notified s)).
  split; [|split; [|split]].
  - apply fan_out_targeted; [congruence|done].
  - intros k Hk.
    destruct (proj1 (Forall_forall _ _) Hreg k Hk) as [cb Hcb].
    exists cb. split; [done|]. apply elem_of_slot_calls. by exists k, cb.
  - intros k cb (k' & cb' & [= -> ->] & _ & H)%elem_of_slot_calls. done.
  - intros k cb (k' & cb' & [= -> ->] & _ & H)%elem_of_slot_calls Hsome.
    by rewrite <- Hlatest.
Qed.

Lemma targeted_fan_out_calls_latest_registration_witness :
  (forall k, is_Some (latest k [(ALARM_CONTEXT, 7)]) ->
             _listener_dictionary alarm_registered_again !! k
             = latest k [(ALARM_CONTEXT, 7)])
  /\ exists calls,
       async_update_listeners alarm_registered_again =
         (log (FanOut (Some (true, {[3%Z]})) :: calls) alarm_registered_again, Ok tt)
       /\ (forall k, k ∈ notified (true, {[3%Z]}) ->
                     exists cb, _listener_dictionary alarm_registered_again !! k = Some cb
                                /\ Call k cb ∈ calls)
       /\ (forall k cb, Call k cb ∈ calls ->
                        _listener_dictionary alarm_registered_again !! k = Some cb)
       /\ (forall k cb, Call k cb ∈ calls ->
                        is_Some (latest k [(ALARM_CONTEXT, 7)]) ->
                        latest k [(ALARM_CONTEXT, 7)] = Some cb).
Proof.
  apply (targeted_fan_out_calls_latest_registration one_zone_changed
           [(ALARM_CONTEXT, 7)] alarm_registered_again (true, {[3%Z]})).
  - reflexivity.
  - reflexivity.
  - apply (bool_decide_unpack _). vm_compute. exact I.
Defined.

(** ** The update loop *)

Lemma fan_outs_app j1 j2 : fan_outs (j1 ++ j2) = fan_outs j1 + fan_outs j2.
Proof. unfold fan_outs. by rewrite List.filter_app, length_app. Qed.

Lemma fan_outs_slot_calls d keys : fan_outs (slot_calls d keys) = 0.
Proof.
  unfold fan_outs, slot_calls. induction keys as [|k keys IH]; [done|].
  simpl. rewrite List.filter_app, length_app, IH.
  by destruct (d !! k).
Qed.

Lemma fan_outs_registered_calls c : fan_outs (registered_calls c) = 0.
Proof.
  unfold fan_outs, registered_calls.
  induction (_listeners c) as [|[cb k] l IH]; [done|]. simpl. exact IH.
Qed.

Lemma try_except_retryable ex c :
  retryable ex = true ->
  try_except (Raises ex) c = (c, Ok (None, Some ex, FallThrough)).
Proof. by destruct ex. Qed.

Lemma set_last_update_success_same c v :
  last_update_success c = v -> set_last_update_success v c = c.
Proof. intros <-. by destruct c. Qed.

(** The loop takes one result of [wait_for_update] per pass and goes on
    after a pass that ends normally. *)
Lemma loop_continues r updates c c' :
  _shutdown_requested c = false ->
  hass_is_stopping c = false ->
  iteration r c = (c', Ok Continue) ->
  _async_update_data (r :: updates) c = _async_update_data updates c'.
Proof. intros Hs Hh Hit. cbn [_async_update_data]. by rewrite Hs, Hh, Hit. Qed.

(** C2 (the claim as worded fails): after a successful update, the first
    retryable failure enters the fan-out twice and the second consecutive
    one enters it again. *)
Lemma second_retryable_failure_fans_out_again :
  last_update_success one_zone_updated = true
  /\ fan_outs (journal one_zone_updated) = 1
  /\ fan_outs (journal first_failure) = 3
  /\ fan_outs (journal second_failure) = 4.
Proof. by vm_compute. Qed.

(** One pass of the loop over a retryable failure. *)
Lemma iteration_retryable c ex :
  retryable ex = true ->
  topics_registered c ->
  exists stale,
    iteration (Raises ex) c =
      (log (stale ++ FanOut None :: registered_calls c)
         (set_data None
            (set_last_update_success false
               (set_last_exception (Some ex) c))),
       Ok Continue)
    /\ fan_outs stale = (if last_update_success c then 1 else 0)
    /\ (last_update_success c = false -> stale = [])
    /\ fan_outs (journal (fst (iteration (Raises ex) c))) =
       fan_outs (journal c) + (if last_update_success c then 2 else 1).
Proof.
  intros Hex Hreg.
  assert (exists stale,
    async_set_update_error ex c =
      (log stale (set_last_update_success false (set_last_exception (Some ex) c)),
       Ok tt)
    /\ fan_outs stale = (if last_update_success c then 1 else 0)
    /\ (last_update_success c = false -> stale = [])) as (stale & Herr & Hn & Hnil).
  { unfold async_set_update_error. step.
    destruct (last_update_success c) eqn:Hlus; simpl.
    - set (c1 := set_last_update_success false (set_last_exception (Some ex) c)).
      unfold topics_registered in Hreg.
      destruct (data c) as [s|] eqn:Hd.
      + exists (FanOut (Some s) :: slot_calls (_listener_dictionary c) (notified s)).
        split; [|split; [|done]].
        * by rewrite (fan_out_targeted c1 s).
        * change (FanOut (Some s) :: ?l) with ([FanOut (Some s)] ++ l).
          by rewrite fan_outs_app, fan_outs_slot_calls.
      + exists (FanOut None :: registered_calls c).
        split; [|split; [|done]].
        * by rewrite (fan_out_full c1).
        * change (FanOut None :: ?l) with ([FanOut None] ++ l).
          by rewrite fan_outs_app, fan_outs_registered_calls.
    - exists []. rewrite log_nil. split; [|done].
      by rewrite (set_last_update_success_same (set_last_exception (Some ex) c)). }
  exists stale.
  assert (iteration (Raises ex) c =
      (log (stale ++ FanOut None :: registered_calls c)
         (set_data None
            (set_last_update_success false
               (set_last_exception (Some ex) c))),
       Ok Continue)) as Hrun.
  { unfold iteration. unfold mbind at 1, M_bind at 1.
    rewrite try_except_retryable by done. cbn beta iota.
    unfold finally. unfold mbind, M_bind. rewrite Herr.
    unfold modify, get. cbn [last_update_success set_data log negb when].
    rewrite fan_out_full by done. unfold mret, M_ret.
    unfold registered_calls, log, set_data. simpl. by rewrite <- app_assoc. }
  rewrite Hrun. repeat split; try done.
  cbn [fst journal log]. rewrite !fan_outs_app, Hn. cbn [journal set_data
    set_last_update_success set_last_exception].
  change (FanOut None :: ?l) with ([FanOut None] ++ l).
  rewrite fan_outs_app, fan_outs_registered_calls.
  destruct (last_update_success c); simpl; lia.
Qed.

(** C2 (amended): every retryable failure, the first of a run and each
    later one alike, records the Update Error, sets the Snapshot to None and
    then enters the fan-out once on the cleared Snapshot, calling every
    registered listener; the loop goes on.  On the first failure of a run
    (last_update_success still true) the base class's error handler has
    entered the fan-out once before that, on the Snapshot not yet cleared;
    on later failures nothing precedes the one fan-out. *)
Theorem retryable_failure_fans_out_every_time c ex :
  retryable ex = true ->
  topics_registered c ->
  exists stale,
    iteration (Raises ex) c =
      (log (stale ++ FanOut None :: registered_calls c)
         (set_data None
            (set_last_update_success false
               (set_last_exception (Some ex) c))),
       Ok Continue)
    /\ fan_outs stale = (if last_update_success c then 1 else 0)
    /\ (last_update_success c = false -> stale = [])
    /\ fan_outs (journal (fst (iteration (Raises ex) c))) =
       fan_outs (journal c) + (if last_update_success c then 2 else 1).
Proof. apply iteration_retryable. Qed.

Lemma retryable_failure_fans_out_every_time_witness :
  exists stale,
    iteration (Raises (PulseExceptionWithBackoff 30)) first_failure =
      (log (stale ++ FanOut None :: registered_calls first_failure)
         (set_data None
            (set_last_update_success false
               (set_last_exception (Some (PulseExceptionWithBackoff 30))
                  first_failure))),
       Ok Continue)
    /\ fan_outs stale = (if last_update_success first_failure then 1 else 0)
    /\ (last_update_success first_failure = false -> stale = [])
    /\ fan_outs (journal (fst (iteration (Raises (PulseExceptionWithBackoff 30))
                                 first_failure))) =
       fan_outs (journal first_failure)
       + (if last_update_success first_failure then 2 else 1).
Proof.
  apply (retryable_failure_fans_out_every_time first_failure
           (PulseExceptionWithBackoff 30)).
  - reflexivity.
  - apply (bool_decide_unpack _). vm_compute. exact I.
Defined.

(** A run of consecutive retryable failures that follows a failure: the
    loop takes them all, and each adds one fan-out. *)
Lemma run_of_retryable_failures exs : forall updates c,
  Forall (fun ex => retryable ex = true) exs ->
  _shutdown_requested c = false ->
  hass_is_stopping c = false ->
  last_update_success c = false ->
  data c = None ->
  exists c',
    _async_update_data (map Raises exs ++ updates) c = _async_update_data updates c'
    /\ fan_outs (journal c') = fan_outs (journal c) + length exs
    /\ last_update_success c' = false
    /\ data c' = None.
Proof.
  induction exs as [|ex exs IH]; intros updates c Hexs Hs Hh Hlus Hd.
  - exists c. simpl. repeat split; (done || lia).
  - apply Forall_cons in Hexs as [Hex Hexs].
    destruct (iteration_retryable c ex Hex) as (stale & Hit & _ & _ & Hn).
    { unfold topics_registered. by rewrite Hd. }
    rewrite Hit in Hn. cbn [fst] in Hn. rewrite Hlus in Hn.
    cbn [map app]. rewrite (loop_continues _ _ _ _ Hs Hh Hit).
    destruct (IH updates
                (log (stale ++ FanOut None :: registered_calls c)
                   (set_data None
                      (set_last_update_success false
                         (set_last_exception (Some ex) c)))))
      as (c' & Hrun & Hcount & Hrest); [done..|].
    exists c'. split; [exact Hrun|]. split; [|exact Hrest].
    rewrite Hcount, Hn. simpl. lia.
Qed.

(** C8 (what the code does): when [wait_for_update] is cancelled the loop
    returns, but the [finally] clause runs first and, no retryable exception
    having been recorded, takes the branch of a successful update with no
    data: it marks the update successful, sets the Snapshot to None and
    enters the fan-out, which calls every registered listener. *)
Theorem cancellation_runs_fan_out_before_returning updates c :
  _shutdown_requested c = false ->
  hass_is_stopping c = false ->
  _async_update_data (Raises CancelledError :: updates) c =
  (log (FanOut None :: registered_calls c)
     (set_last_update_success true
        (set_data None (set_last_exception None c))),
   Returned).
Proof.
  intros Hs Hh. cbn [_async_update_data]. rewrite Hs, Hh. cbn [negb andb].
  cbv [iteration try_except finally async_set_updated_data
       mbind M_bind mret M_ret modify].
  by rewrite fan_out_full.
Qed.

Lemma cancellation_runs_fan_out_before_returning_witness :
  _async_update_data [Raises CancelledError] one_zone_updated =
  (log [FanOut None; Call "Alarm" 1; Call "Zone 3" 2; Call "Zone 3 Trouble" 3;
        Call "ConnectionStatus" 4; Call "NextRefresh" 5]
     (set_last_update_success true
        (set_data None (set_last_exception None one_zone_updated))),
   Returned).
Proof.
  apply (cancellation_runs_fan_out_before_returning [] one_zone_updated);
    reflexivity.
Defined.

End CoordinatorProofs.

(** * Further properties of the alarm control panel *)

Module AlarmEntityProofs.
Import AlarmPanel AlarmEntity.

Lemma added_app p j s a :
  added p {| _assumed_state := a; _site := s; journal := journal p ++ j |} = j.
Proof. unfold added. simpl. by rewrite drop_app_length. Qed.

Lemma added_same p : added p p = [].
Proof. unfold added. by rewrite drop_all. Qed.

Lemma checks_pass_reaches_site cmd p :
  checks_pass cmd p <-> reaches_site cmd p = true.
Proof.
  unfold checks_pass, reaches_site. rewrite AlarmPanelProofs.check_armable_unfold.
  cbn [snd]. destruct (decide (cmd = Disarm)) as [-> | Hne].
  - simpl. rewrite bool_decide_eq_true. split; [tauto|]. intros ?. split; [by left|done].
  - rewrite andb_true_iff, bool_decide_eq_true. split.
    + intros [[? | Hok] Hsame]; [done|].
      case_bool_decide as Hst; [done|]. split; [done|].
      by destruct (can_be_armed (_site p)).
    + intros [Hst ->]. split.
      * right. by rewrite bool_decide_false by (by intros []).
      * rewrite Hst. intros [= Ht]. symmetry in Ht.
        by apply AlarmPanelProofs.target_DISARMED in Ht.
Qed.

(** The three ways a command can go. *)
Lemma run_cases site cmd p :
  checks_pass cmd p
  \/ (exists msg, run site cmd p = (p, Raise (HomeAssistantError msg)))
  \/ run site cmd p =
     (record (LogWarning "Attempting to set alarm to same state, ignoring") p, Ok tt).
Proof.
  destruct (reaches_site cmd p) eqn:E.
  { left. by apply checks_pass_reaches_site. }
  right. unfold reaches_site in E. destruct (decide (cmd = Disarm)) as [-> | Hne].
  - right. apply AlarmPanelProofs.perform_same_state_disarm.
    apply bool_decide_eq_false in E. by apply dec_stable in E.
  - left. apply andb_false_iff in E as [E | E].
    + apply bool_decide_eq_false in E. eexists.
      by apply AlarmPanelProofs.perform_conflict.
    + destruct (decide (alarm_state p = Some DISARMED)) as [Hst | Hst].
      * eexists. by apply AlarmPanelProofs.perform_not_ready.
      * eexists. by apply AlarmPanelProofs.perform_conflict.
Qed.

(** What the driver leaves once the site call has returned a boolean. *)
Lemma run_completed site cmd p s' b :
  checks_pass cmd p ->
  site (coroutine cmd) (_site p) = (s', Ok b) ->
  exists mid,
    fst (run site cmd p) =
    {| _assumed_state := None; _site := s';
       journal := journal p
                  ++ WriteHAState (Some (in_flight cmd p)) true
                     :: Await (coroutine cmd)
                     :: mid ++ [WriteHAState (ALARM_MAP_get (status s')) false] |}
    /\ awaited mid = []
    /\ snd (run site cmd p) =
       if b then Ok tt
       else Raise (HomeAssistantError
                     ("Could not set alarm status to " +:+ value (target cmd))).
Proof.
  intros Hpass Hsite. rewrite (AlarmPanelProofs.perform_proceeds site cmd p Hpass).
  cbn zeta. rewrite Hsite. destruct b.
  - exists []. cbn [fst snd]. by rewrite <- app_assoc.
  - exists [LogWarning ("Could not " +:+ value (target cmd) +:+ " ADT Pulse alarm")].
    cbn [fst snd]. by rewrite <- app_assoc.
Qed.

(** A command awaits at most one site call, its own coroutine, and it does
    so exactly when it gets past its checks; a command that does not reach
    the site leaves the site and Assumed State alone. *)
Theorem command_awaits_own_coroutine_or_nothing site cmd p :
  awaited (added p (fst (run site cmd p))) =
    (if reaches_site cmd p then [coroutine cmd] else [])
  /\ (if reaches_site cmd p then True
      else _site (fst (run site cmd p)) = _site p
           /\ _assumed_state (fst (run site cmd p)) = _assumed_state p).
Proof.
  destruct (reaches_site cmd p) eqn:E.
  - split; [|done]. apply checks_pass_reaches_site in E.
    destruct (site (coroutine cmd) (_site p)) as [s' [b|e]] eqn:Hsite.
    + destruct (run_completed site cmd p s' b E Hsite) as (mid & -> & Hmid & _).
      rewrite added_app. cbn [awaited flat_map app].
      fold (awaited (mid ++ [WriteHAState (ALARM_MAP_get (status s')) false])).
      unfold awaited in *. by rewrite flat_map_app, Hmid.
    + rewrite (AlarmPanelProofs.perform_proceeds site cmd p E). cbn zeta.
      rewrite Hsite. cbn [fst]. by rewrite added_app.
  - destruct (run_cases site cmd p) as [Hpass | [[msg ->] | ->]].
    + apply checks_pass_reaches_site in Hpass. congruence.
    + cbn [fst]. by rewrite added_same.
    + cbn [fst]. split; [|done]. unfold record. by rewrite added_app.
Qed.

(** When the site never raises, Assumed State is absent between service
    calls: whatever commands are issued one after the other and however each
    of them ends, an entity that starts without Assumed State has none
    afterwards. *)
Theorem assumed_state_absent_between_commands site cmds p :
  (forall call s, exists s' b, site call s = (s', Ok b)) ->
  _assumed_state p = None ->
  _assumed_state (run_all site cmds p) = None.
Proof.
  intros Hsite. revert p. induction cmds as [|cmd cmds IH]; intros p Hp; [done|].
  cbn [run_all]. apply IH.
  destruct (run_cases site cmd p) as [Hpass | [[msg ->] | ->]]; [|done..].
  destruct (Hsite (coroutine cmd) (_site p)) as (s' & b & Hcall).
  by destruct (run_completed site cmd p s' b Hpass Hcall) as (mid & -> & _).
Qed.

Lemma assumed_state_absent_between_commands_witness :
  _assumed_state
    (run_all rejecting [ArmAway; Disarm; ArmCustomBypass; ArmHome]
       (fresh ADT_ALARM_OFF true true)) = None.
Proof.
  apply (assumed_state_absent_between_commands rejecting
           [ArmAway; Disarm; ArmCustomBypass; ArmHome]
           (fresh ADT_ALARM_OFF true true)).
  - intros call s. exists s, false. reflexivity.
  - reflexivity.
Defined.

(** Once the site call of a command has returned, the entity shows the
    remote status again, mapped through ALARM_MAP, with the assumed-state
    flag clear; what it shows is one of the six mapped states (or nothing),
    so never armed_custom_bypass, not even after a successful
    arm-with-bypass. *)
Theorem completed_command_shows_remote_status site cmd p s' b :
  checks_pass cmd p ->
  site (coroutine cmd) (_site p) = (s', Ok b) ->
  alarm_state (fst (run site cmd p)) = ALARM_MAP_get (status s')
  /\ assumed_state (fst (run site cmd p)) = false
  /\ (forall x, alarm_state (fst (run site cmd p)) = Some x -> x ∈ mapped_states)
  /\ alarm_state (fst (run site cmd p)) <> Some ARMED_CUSTOM_BYPASS.
Proof.
  intros Hpass Hsite.
  destruct (run_completed site cmd p s' b Hpass Hsite) as (mid & -> & _).
  unfold alarm_state, assumed_state. cbn [_assumed_state _site].
  repeat split; try done.
  - intros x Hx. destruct (status s'); simplify_eq/=; unfold mapped_states;
      set_solver.
  - by destruct (status s').
Qed.

Lemma completed_command_shows_remote_status_witness :
  alarm_state (fst (run obeying ArmCustomBypass (fresh ADT_ALARM_OFF true true)))
  = ALARM_MAP_get ADT_ALARM_AWAY
  /\ assumed_state (fst (run obeying ArmCustomBypass (fresh ADT_ALARM_OFF true true)))
     = false
  /\ (forall x,
        alarm_state (fst (run obeying ArmCustomBypass (fresh ADT_ALARM_OFF true true)))
        = Some x -> x ∈ mapped_states)
  /\ alarm_state (fst (run obeying ArmCustomBypass (fresh ADT_ALARM_OFF true true)))
     <> Some ARMED_CUSTOM_BYPASS.
Proof.
  apply (completed_command_shows_remote_status obeying ArmCustomBypass
           (fresh ADT_ALARM_OFF true true)
           {| status := ADT_ALARM_AWAY; is_online := true; can_be_armed := true |}
           true).
  - split; [right; reflexivity | vm_compute; discriminate].
  - reflexivity.
Defined.

(** A command the site rejects without changing the remote status puts the
    display back: started without Assumed State, the entity shows after the
    command-rejected error what it showed before the command. *)
Theorem rejected_command_restores_display site cmd p s' :
  _assumed_state p = None ->
  checks_pass cmd p ->
  site (coroutine cmd) (_site p) = (s', Ok false) ->
  status s' = status (_site p) ->
  alarm_state (fst (run site cmd p)) = alarm_state p
  /\ snd (run site cmd p) =
     Raise (HomeAssistantError
              ("Could not set alarm status to " +:+ value (target cmd))).
Proof.
  intros Hnone Hpass Hsite Hst.
  destruct (run_completed site cmd p s' false Hpass Hsite) as (mid & -> & _ & ->).
  split; [|done]. unfold alarm_state. cbn [_assumed_state _site].
  by rewrite Hnone, Hst.
Qed.

Lemma rejected_command_restores_display_witness :
  alarm_state (fst (run rejecting ArmNight (fresh ADT_ALARM_OFF true true)))
  = alarm_state (fresh ADT_ALARM_OFF true true)
  /\ snd (run rejecting ArmNight (fresh ADT_ALARM_OFF true true)) =
     Raise (HomeAssistantError
              ("Could not set alarm status to " +:+ value (target ArmNight))).
Proof.
  apply (rejected_command_restores_display rejecting ArmNight
           (fresh ADT_ALARM_OFF true true)
           (_site (fresh ADT_ALARM_OFF true true))).
  - reflexivity.
  - split; [right; reflexivity | vm_compute; discriminate].
  - reflexivity.
  - reflexivity.
Defined.

(** [_handle_coordinator_update] writes the state exactly when the remote
    status is a key of ALARM_MAP.  On any other status its subscript raises
    KeyError and nothing is written, whether or not an Assumed State is
    held, while the [alarm_state] property answers for the same status
    without raising. *)
Theorem coordinator_update_needs_mapped_status p :
  (snd (_handle_coordinator_update p) = Ok tt <->
     is_Some (ALARM_MAP_get (status (_site p))))
  /\ (forall raw, status (_site p) = ADT_ALARM_OTHER raw ->
        _handle_coordinator_update p = (p, Raise (KeyError raw)))
  /\ (forall s, ALARM_MAP_get (status (_site p)) = Some s ->
        _handle_coordinator_update p =
        (record (WriteHAState (alarm_state p) (assumed_state p)) p, Ok tt))
  /\ (ALARM_MAP_get (status (_site p)) = None ->
        alarm_state p = _assumed_state p).
Proof.
  assert (forall s, ALARM_MAP_get (status (_site p)) = Some s ->
            _handle_coordinator_update p =
            (record (WriteHAState (alarm_state p) (assumed_state p)) p, Ok tt))
    as Hmapped.
  { intros s Hs. unfold _handle_coordinator_update, mbind, M_bind, get.
    by destruct (status (_site p)). }
  assert (forall raw, status (_site p) = ADT_ALARM_OTHER raw ->
            _handle_coordinator_update p = (p, Raise (KeyError raw))) as Hother.
  { intros raw Hraw. unfold _handle_coordinator_update, mbind, M_bind, get.
    by rewrite Hraw. }
  split; [|split; [done|split; [done|]]].
  - split.
    + intros Hok. destruct (status (_site p)) as [| | | | | |raw] eqn:E;
        try (by eexists).
      by rewrite (Hother raw) in Hok.
    + intros [s Hs]. by rewrite (Hmapped s Hs).
  - intros Hnone. unfold alarm_state. rewrite Hnone.
    by destruct (_assumed_state p).
Qed.

(** Against a site that does as asked, arming and then disarming is a round
    trip: from a disarmed, armable entity every arm command followed by
    disarm ends disarmed again with no Assumed State, having awaited the arm
    coroutine and then [async_disarm], and having published four times
    (marker, armed state, marker, disarmed). *)
Theorem arm_then_disarm_round_trip cmd p :
  cmd <> Disarm ->
  _assumed_state p = None ->
  status (_site p) = ADT_ALARM_OFF ->
  can_be_armed (_site p) = true ->
  alarm_state (run_all obeying [cmd; Disarm] p) = Some DISARMED
  /\ _assumed_state (run_all obeying [cmd; Disarm] p) = None
  /\ awaited (added p (run_all obeying [cmd; Disarm] p))
     = [coroutine cmd; async_disarm]
  /\ length (added p (run_all obeying [cmd; Disarm] p)) = 6.
Proof.
  intros Hcmd Hnone Hst Harm.
  destruct p as [a [st online armable] j]. simpl in *. subst.
  unfold added.
  destruct cmd, online; try done;
    cbv -[app drop length]; rewrite <- !app_assoc, drop_app_length; done.
Qed.

Lemma arm_then_disarm_round_trip_witness :
  alarm_state (run_all obeying [ArmAway; Disarm] (fresh ADT_ALARM_OFF true true))
  = Some DISARMED
  /\ _assumed_state (run_all obeying [ArmAway; Disarm] (fresh ADT_ALARM_OFF true true))
     = None
  /\ awaited (added (fresh ADT_ALARM_OFF true true)
                (run_all obeying [ArmAway; Disarm] (fresh ADT_ALARM_OFF true true)))
     = [coroutine ArmAway; async_disarm]
  /\ length (added (fresh ADT_ALARM_OFF true true)
               (run_all obeying [ArmAway; Disarm] (fresh ADT_ALARM_OFF true true)))
     = 6.
Proof.
  apply (arm_then_disarm_round_trip ArmAway (fresh ADT_ALARM_OFF true true));
    [discriminate | reflexivity..].
Defined.

End AlarmEntityProofs.

(** * Further properties of the update coordinator *)

Module CoordinatorMoreProofs.
Import Coordinator CoordinatorMore.

(** ** Loops over listeners *)

Lemma for_each_app {S A} (l1 l2 : list A) (body : A -> M S unit) c :
  for_each (l1 ++ l2) body c = (for_each l1 body;; for_each l2 body) c.
Proof.
  revert c. induction l1 as [|x l1 IH]; intros c; [done|].
  cbn [app for_each]. unfold mbind, M_bind in *.
  destruct (body x c) as [c' [[]|e]]; [|done]. apply IH.
Qed.

Lemma for_each_zone_flat zs c :
  for_each zs (fun zones =>
      call_listener (ZONE_CONTEXT_PREFIX +:+ pretty zones);;
      call_listener (ZONE_CONTEXT_PREFIX +:+ pretty zones +:+ ZONE_TROUBLE_PREFIX)) c =
  for_each (flat_map (fun z => [zone_context z; zone_trouble_context z]) zs)
    call_listener c.
Proof.
  revert c. induction zs as [|z zs IH]; intros c; [done|].
  cbn [flat_map app for_each]. unfold mbind, M_bind.
  fold (zone_context z). fold (zone_trouble_context z).
  destruct (call_listener (zone_context z) c) as [c1 [[]|e]]; [|done].
  destruct (call_listener (zone_trouble_context z) c1) as [c2 [[]|e]]; [|done].
  apply IH.
Qed.

(** With a snapshot, the fan-out is one loop over the topics the snapshot
    names. *)
Lemma fan_out_visits_notified c s :
  data c = Some s ->
  async_update_listeners c =
  for_each (notified s) call_listener (log [FanOut (Some s)] c).
Proof.
  intros Hd. unfold async_update_listeners.
  unfold mbind at 1 2, M_bind at 1 2, get, modify. rewrite Hd.
  unfold notified. rewrite for_each_app. unfold mbind, M_bind.
  assert (forall c0, when s.1 (call_listener ALARM_CONTEXT) c0 =
                     for_each (if s.1 then [ALARM_CONTEXT] else []) call_listener c0)
    as ->.
  { intros c0. unfold when. destruct (s.1); [|done].
    cbn [for_each]. unfold mbind, M_bind.
    by destruct (call_listener ALARM_CONTEXT c0) as [c1 [[]|e]]. }
  destruct (for_each (if s.1 then [ALARM_CONTEXT] else []) call_listener
              (log [FanOut (Some s)] c)) as [c1 [[]|e]]; [|done].
  rewrite for_each_app. unfold mbind, M_bind.
  by rewrite for_each_zone_flat.
Qed.




(** ** The topic keys *)

Lemma pretty_N_char_numeral n : numeral_char (pretty_N_char n) = true.
Proof. unfold pretty_N_char. by repeat case_match. Qed.

Lemma pretty_N_go_numeral x : forall s,
  numeral s = true -> numeral (pretty_N_go x s) = true.
Proof.
  induction (N.lt_wf_0 x) as [x _ IH]. intros s Hs.
  assert (x = 0 \/ 0 < x)%N as [-> | Hx] by lia.
  - by rewrite pretty_N_go_0.
  - rewrite pretty_N_go_step by done. apply IH.
    + by apply N.div_lt.
    + cbn [numeral]. by rewrite pretty_N_char_numeral.
Qed.

Lemma pretty_N_numeral (x : N) : numeral (pretty x) = true.
Proof.
  unfold pretty, pretty_N. case_decide; [done|]. by apply pretty_N_go_numeral.
Qed.

(** [str] of an integer is made of digits and the minus sign. *)
Lemma pretty_Z_numeral (z : Z) : numeral (pretty z) = true.
Proof.
  unfold pretty, pretty_Z. destruct z as [|x|x]; [done|..].
  - apply pretty_N_numeral.
  - cbn [String.append numeral]. apply andb_true_iff. split; [done|].
    exact (pretty_N_numeral (Npos x)).
Qed.

Lemma numeral_trouble s : numeral (s +:+ ZONE_TROUBLE_PREFIX) = false.
Proof.
  induction s as [|a s IH]; [done|].
  change (String a s +:+ ZONE_TROUBLE_PREFIX)
    with (String a (s +:+ ZONE_TROUBLE_PREFIX)).
  cbn [numeral]. rewrite IH. apply andb_false_r.
Qed.

Lemma trouble_suffix_inj s1 : forall s2,
  numeral s1 = true -> numeral s2 = true ->
  s1 +:+ ZONE_TROUBLE_PREFIX = s2 +:+ ZONE_TROUBLE_PREFIX -> s1 = s2.
Proof.
  induction s1 as [|a s1 IH]; intros [|b s2] H1 H2 Heq; [done|..].
  - injection Heq as <- _. by vm_compute in H2.
  - injection Heq as -> _. by vm_compute in H1.
  - cbn [numeral] in H1, H2.
    apply andb_true_iff in H1 as [_ H1]. apply andb_true_iff in H2 as [_ H2].
    injection Heq as -> Heq. f_equal. by apply IH.
Qed.

Lemma zone_context_inj z1 z2 : zone_context z1 = zone_context z2 -> z1 = z2.
Proof. intros [= H]. by apply (inj pretty). Qed.

Lemma zone_trouble_context_inj z1 z2 :
  zone_trouble_context z1 = zone_trouble_context z2 -> z1 = z2.
Proof.
  intros [= H]. apply (inj pretty).
  by apply trouble_suffix_inj; [apply pretty_Z_numeral..|].
Qed.

Lemma zone_context_not_trouble z1 z2 : zone_context z1 <> zone_trouble_context z2.
Proof.
  intros [= H]. change (pretty z1 = pretty z2 +:+ ZONE_TROUBLE_PREFIX) in H.
  pose proof (pretty_Z_numeral z1) as Hn. rewrite H in Hn. by rewrite numeral_trouble in Hn.
Qed.

Lemma zone_keys_NoDup (zs : list Z) :
  NoDup zs ->
  NoDup (flat_map (fun z => [zone_context z; zone_trouble_context z]) zs).
Proof.
  induction 1 as [|z zs Hz Hzs IH]; [constructor|].
  cbn [flat_map app]. apply NoDup_cons. split.
  - rewrite not_elem_of_cons. split; [apply zone_context_not_trouble|].
    rewrite list_elem_of_In, in_flat_map. intros (z' & Hz' & [H | [H | []]]).
    + apply zone_context_inj in H as <-. by apply list_elem_of_In in Hz'.
    + symmetry in H. by apply zone_context_not_trouble in H.
  - apply NoDup_cons. split; [|done].
    rewrite list_elem_of_In, in_flat_map. intros (z' & Hz' & [H | [H | []]]).
    + by apply zone_context_not_trouble in H.
    + apply zone_trouble_context_inj in H as <-. by apply list_elem_of_In in Hz'.
Qed.

(** No two topics a snapshot names share a key: distinct zone ids give
    distinct keys, a zone key is never a zone-trouble key, and neither is
    one of the three fixed keys. *)
Lemma notified_NoDup s : NoDup (notified s).
Proof.
  unfold notified. apply NoDup_app. split; [|split].
  - destruct (s.1); [apply NoDup_singleton | constructor].
  - intros k Hk. destruct (s.1); [|by apply elem_of_nil in Hk].
    apply list_elem_of_singleton in Hk as ->.
    rewrite elem_of_app, list_elem_of_In, in_flat_map.
    intros [(z & _ & [H | [H | []]]) | H]; [done..|].
    by repeat (apply elem_of_cons in H as [H | H]; [done|]);
      apply elem_of_nil in H.
  - apply NoDup_app. split; [|split].
    + apply zone_keys_NoDup, NoDup_elements.
    + intros k. rewrite list_elem_of_In, in_flat_map.
      intros (z & _ & [<- | [<- | []]]) H;
        by repeat (apply elem_of_cons in H as [H | H]; [done|]);
          apply elem_of_nil in H.
    + apply NoDup_cons. split; [|apply NoDup_singleton].
      intros H%list_elem_of_singleton. discriminate H.
Qed.

Lemma notified_length s :
  length (notified s) = (if s.1 then 1 else 0) + 2 * size s.2 + 2.
Proof.
  unfold notified. rewrite !length_app.
  replace (length (flat_map (fun z => [zone_context z; zone_trouble_context z])
                     (elements s.2))) with (2 * size s.2).
  - destruct (s.1); simpl; lia.
  - unfold size, set_size. simpl.
    induction (elements s.2) as [|z zs IH]; [done|]. simpl. lia.
Qed.

Lemma slot_calls_registered d keys :
  Forall (fun k => is_Some (d !! k)) keys ->
  NoDup keys ->
  NoDup (slot_calls d keys) /\ length (slot_calls d keys) = length keys.
Proof.
  intros Hreg Hnd. induction Hnd as [|k keys Hk Hkeys IH]; [by split; [constructor|]|].
  apply Forall_cons in Hreg as [[cb Hcb] Hreg].
  destruct (IH Hreg) as [IH1 IH2].
  unfold slot_calls in *. cbn [flat_map]. rewrite Hcb. cbn [app length].
  split; [|by rewrite IH2]. apply NoDup_cons. split; [|done].
  intros Hin. apply CoordinatorProofs.elem_of_slot_calls in Hin
    as (k' & cb' & [= <- <-] & Hk' & _). done.
Qed.

(** A fan-out with a snapshot whose topics are all registered makes one
    call per topic and no topic is called twice: 2 calls for each changed
    zone, the two bookkeeping calls, and one more when the alarm flag is
    set. *)
Theorem targeted_fan_out_calls_each_topic_once c s :
  data c = Some s ->
  topics_registered c ->
  exists calls,
    async_update_listeners c = (log (FanOut (Some s) :: calls) c, Ok tt)
    /\ NoDup calls
    /\ length calls = (if s.1 then 1 else 0) + 2 * size s.2 + 2
    /\ forall k, k ∈ notified s -> exists cb, Call k cb ∈ calls.
Proof.
  intros Hd Hreg. unfold topics_registered in Hreg. rewrite Hd in Hreg.
  exists (slot_calls (_listener_dictionary c) (notified s)).
  destruct (slot_calls_registered _ _ Hreg (notified_NoDup s)) as [Hnd Hlen].
  split; [by apply CoordinatorProofs.fan_out_targeted|].
  split; [done|]. split; [by rewrite Hlen, notified_length|].
  intros k Hk. destruct (proj1 (Forall_forall _ _) Hreg k Hk) as [cb Hcb].
  exists cb. apply CoordinatorProofs.elem_of_slot_calls. by exists k, cb.
Qed.

Lemma targeted_fan_out_calls_each_topic_once_witness :
  exists calls,
    async_update_listeners one_zone_changed =
      (log (FanOut (Some (true, {[3%Z]})) :: calls) one_zone_changed, Ok tt)
    /\ NoDup calls
    /\ length calls = (if (true, ({[3%Z]} : gset Z)).1 then 1 else 0)
                      + 2 * size (true, ({[3%Z]} : gset Z)).2 + 2
    /\ forall k, k ∈ notified (true, {[3%Z]}) -> exists cb, Call k cb ∈ calls.
Proof.
  apply (targeted_fan_out_calls_each_topic_once one_zone_changed (true, {[3%Z]})).
  - reflexivity.
  - apply (bool_decide_unpack _). by vm_compute.
Defined.

(** ** What a pass of the loop can change *)

Lemma for_each_only_logs keys : forall c,
  exists evs r, for_each keys call_listener c = (log evs c, r).
Proof.
  induction keys as [|k keys IH]; intros c.
  - exists [], (Ok tt). cbn. by rewrite CoordinatorProofs.log_nil.
  - cbn [for_each]. unfold mbind, M_bind.
    destruct (_listener_dictionary c !! k) as [cb|] eqn:Hk.
    + rewrite (CoordinatorProofs.call_listener_registered c k cb Hk).
      destruct (IH (log [Call k cb] c)) as (evs & r & ->).
      exists ([Call k cb] ++ evs), r. by rewrite CoordinatorProofs.log_log.
    + rewrite (CoordinatorProofs.call_listener_unregistered c k Hk).
      exists [], (Raise (KeyError k)). by rewrite CoordinatorProofs.log_nil.
Qed.

(** Whatever it is given and however it ends, the fan-out only adds to the
    journal. *)
Lemma fan_out_only_logs c :
  exists evs r, async_update_listeners c = (log evs c, r).
Proof.
  destruct (data c) as [s|] eqn:Hd.
  - rewrite (fan_out_visits_notified c s Hd).
    destruct (for_each_only_logs (notified s) (log [FanOut (Some s)] c))
      as (evs & r & ->).
    exists ([FanOut (Some s)] ++ evs), r. by rewrite CoordinatorProofs.log_log.
  - rewrite (CoordinatorProofs.fan_out_full c Hd). by eexists _, _.
Qed.

(** One pass of the loop body: it rewrites the three bookkeeping
    attributes and adds to the journal, nothing else; and when it does not
    raise, either no error is recorded and the update counts as successful,
    or a retryable error is recorded, the update counts as failed and the
    Snapshot is None. *)
Lemma iteration_shape r c :
  exists evs d lus le res,
    iteration r c =
      (log evs (set_last_update_success lus (set_data d (set_last_exception le c))),
       res)
    /\ (forall f, res = Ok f ->
          (le = None /\ lus = true)
          \/ (exists ex, retryable ex = true /\ le = Some ex
                          /\ lus = false /\ d = None)).
Proof.
  assert (forall d0 pre (pending : exit),
    exists evs res,
      (finally None d0;;
       match pending with
       | FallThrough => mret Continue
       | ReturnNone => mret Return
       | Reraise ex => raise ex
       end) (log pre c) =
      (log evs (set_last_update_success true (set_data d0 (set_last_exception None c))),
       res)) as Hnone.
  { intros d0 pre pending.
    cbv [finally async_set_updated_data mbind M_bind mret M_ret modify raise].
    destruct (fan_out_only_logs
                (set_last_update_success true
                   (set_data d0 (set_last_exception None (log pre c)))))
      as (evs & r0 & ->).
    destruct r0 as [[]|e]; [destruct pending|]; by exists (pre ++ evs); eexists;
      unfold log, set_last_update_success, set_data, set_last_exception; simpl;
      rewrite app_assoc. }
  assert (forall ex, retryable ex = true ->
    exists evs d lus res,
      (finally (Some ex) None;; mret Continue) c =
        (log evs (set_last_update_success lus (set_data d (set_last_exception (Some ex) c))),
         res)
      /\ (forall f, res = Ok f -> lus = false /\ d = None)) as Hretry.
  { intros ex Hex.
    cbv [finally async_set_update_error mbind M_bind mret M_ret modify get when].
    cbn [last_update_success set_last_exception].
    destruct (last_update_success c) eqn:Hlus.
    - destruct (fan_out_only_logs
                  (set_last_update_success false (set_last_exception (Some ex) c)))
        as (evs1 & r1 & ->).
      destruct r1 as [[]|e].
      + cbn [last_update_success set_data log set_last_update_success negb].
        rewrite CoordinatorProofs.fan_out_full by done.
        exists (evs1 ++ FanOut None :: registered_calls c), None, false,
          (Ok Continue). split; [|done].
        unfold log, set_last_update_success, set_data, set_last_exception,
          registered_calls. simpl. by rewrite <- app_assoc.
      + exists evs1, (data c), false, (Raise e). split; [|done].
        f_equal.
    - cbn [last_update_success set_data set_last_exception]. rewrite Hlus.
      cbn [negb]. rewrite CoordinatorProofs.fan_out_full by done.
      exists (FanOut None :: registered_calls c), None, false, (Ok Continue).
      split; [|done].
      unfold log, set_last_update_success, set_data, set_last_exception,
        registered_calls. simpl. by rewrite Hlus. }
  unfold iteration.
  destruct r as [s | ex].
  - unfold mbind at 1, M_bind at 1. cbn [try_except]. unfold mret at 1, M_ret at 1.
    cbn beta iota.
    destruct (Hnone (Some s) [] FallThrough) as (evs & res & H).
    rewrite CoordinatorProofs.log_nil in H. rewrite H.
    exists evs, (Some s), true, None, res. split; [done|]. intros; by left.
  - destruct ex as [ | t | i | | k | m | n ].
    + unfold mbind at 1, M_bind at 1. cbn [try_except].
      cbv [mbind M_bind mret M_ret get when modify] in *.
      destruct (config_entry c).
      * destruct (Hnone None [StartReauth] ReturnNone) as (evs & res & ->).
        exists evs, None, true, None, res. split; [done|]. intros; by left.
      * destruct (Hnone None [] ReturnNone) as (evs & res & H).
        rewrite CoordinatorProofs.log_nil in H. rewrite H.
        exists evs, None, true, None, res. split; [done|]. intros; by left.
    + unfold mbind at 1, M_bind at 1. cbn [try_except]. unfold mret at 1, M_ret at 1.
      cbn beta iota.
      destruct (Hretry (PulseExceptionWithRetry t) eq_refl)
        as (evs & d & lus & res & -> & Hc).
      exists evs, d, lus, (Some (PulseExceptionWithRetry t)), res.
      split; [done|]. intros f Hf. right. destruct (Hc f Hf) as [-> ->].
      by exists (PulseExceptionWithRetry t).
    + unfold mbind at 1, M_bind at 1. cbn [try_except]. unfold mret at 1, M_ret at 1.
      cbn beta iota.
      destruct (Hretry (PulseExceptionWithBackoff i) eq_refl)
        as (evs & d & lus & res & -> & Hc).
      exists evs, d, lus, (Some (PulseExceptionWithBackoff i)), res.
      split; [done|]. intros f Hf. right. destruct (Hc f Hf) as [-> ->].
      by exists (PulseExceptionWithBackoff i).
    + unfold mbind at 1, M_bind at 1. cbn [try_except]. unfold mret at 1, M_ret at 1.
      cbn beta iota.
      destruct (Hnone None [] ReturnNone) as (evs & res & H).
      rewrite CoordinatorProofs.log_nil in H. rewrite H.
      exists evs, None, true, None, res. split; [done|]. intros; by left.
    + unfold mbind at 1, M_bind at 1. cbn [try_except]. unfold mret at 1, M_ret at 1.
      cbn beta iota.
      destruct (Hnone None [] (Reraise (KeyError k))) as (evs & res & H).
      rewrite CoordinatorProofs.log_nil in H. rewrite H.
      exists evs, None, true, None, res. split; [done|]. intros; by left.
    + unfold mbind at 1, M_bind at 1. cbn [try_except]. unfold mret at 1, M_ret at 1.
      cbn beta iota.
      destruct (Hnone None [] (Reraise (HomeAssistantError m))) as (evs & res & H).
      rewrite CoordinatorProofs.log_nil in H. rewrite H.
      exists evs, None, true, None, res. split; [done|]. intros; by left.
    + unfold mbind at 1, M_bind at 1. cbn [try_except]. unfold mret at 1, M_ret at 1.
      cbn beta iota.
      destruct (Hnone None [] (Reraise (OtherException n))) as (evs & res & H).
      rewrite CoordinatorProofs.log_nil in H. rewrite H.
      exists evs, None, true, None, res. split; [done|]. intros; by left.
Qed.

Lemma extends_refl c : extends c c.
Proof. repeat split. exists []. by rewrite app_nil_r. Qed.

Lemma extends_trans c1 c2 c3 : extends c1 c2 -> extends c2 c3 -> extends c1 c3.
Proof.
  intros (H1 & H2 & H3 & H4 & H5 & evs & H6) (G1 & G2 & G3 & G4 & G5 & evs' & G6).
  repeat split; try congruence.
  exists (evs ++ evs'). by rewrite G6, H6, app_assoc.
Qed.

Lemma iteration_extends r c : extends c (iteration r c).1.
Proof.
  destruct (iteration_shape r c) as (evs & d & lus & le & res & -> & _).
  repeat split. by exists evs.
Qed.

(** The update loop never adds, replaces or drops a listener, and never
    touches the stop flags or the config entry: after any sequence of
    results of [wait_for_update], however the task ends, both registries
    are as they were and the journal has only grown. *)
Theorem update_loop_keeps_registries updates c :
  extends c (_async_update_data updates c).1.
Proof.
  revert c. induction updates as [|r updates IH]; intros c; cbn [_async_update_data].
  - destruct (negb (_shutdown_requested c) && negb (hass_is_stopping c));
      apply extends_refl.
  - destruct (negb (_shutdown_requested c) && negb (hass_is_stopping c));
      [|apply extends_refl].
    pose proof (iteration_extends r c) as Hit.
    destruct (iteration r c) as [c' [[|]|e]]; cbn [fst] in *; [|done..].
    by eapply extends_trans.
Qed.

(** After a pass of the loop that does not raise, the error bookkeeping is
    coherent: either no Update Error is recorded and [last_update_success]
    is true, or a retryable error is recorded, [last_update_success] is
    false and the Snapshot is None. *)
Theorem error_bookkeeping_coherent r c c' f :
  iteration r c = (c', Ok f) ->
  (last_exception c' = None /\ last_update_success c' = true)
  \/ (exists ex, retryable ex = true /\ last_exception c' = Some ex
                  /\ last_update_success c' = false /\ data c' = None).
Proof.
  intros Hit.
  destruct (iteration_shape r c) as (evs & d & lus & le & res & Heq & Hc).
  rewrite Hit in Heq. injection Heq as -> <-.
  destruct (Hc f eq_refl) as [[-> ->] | (ex & Hex & -> & -> & ->)].
  - by left.
  - right. by exists ex.
Qed.

Lemma error_bookkeeping_coherent_witness :
  (last_exception first_failure = None /\ last_update_success first_failure = true)
  \/ (exists ex, retryable ex = true /\ last_exception first_failure = Some ex
                  /\ last_update_success first_failure = false
                  /\ data first_failure = None).
Proof.
  apply (error_bookkeeping_coherent (Raises (PulseExceptionWithRetry None))
           one_zone_updated first_failure Continue).
  vm_compute. reflexivity.
Defined.

(** ** The ways out of the loop *)

(** On PulseLoginException the loop starts the re-authentication when
    there is a config entry and returns without taking another update; the
    [finally] clause runs on that return too and, as after a successful
    update with no data, clears the Update Error, sets the Snapshot to None,
    marks the update successful and calls every registered listener. *)
Theorem login_failure_starts_reauth_and_returns updates c :
  _shutdown_requested c = false ->
  hass_is_stopping c = false ->
  _async_update_data (Raises PulseLoginException :: updates) c =
  (log ((if config_entry c then [StartReauth] else [])
        ++ FanOut None :: registered_calls c)
     (set_last_update_success true (set_data None (set_last_exception None c))),
   Returned).
Proof.
  intros Hs Hh. cbn [_async_update_data]. rewrite Hs, Hh. cbn [negb andb].
  cbv [iteration try_except finally async_set_updated_data
       mbind M_bind mret M_ret modify get when].
  destruct (config_entry c) eqn:Hce.
  - rewrite CoordinatorProofs.fan_out_full by done.
    unfold log, set_last_update_success, set_data, set_last_exception,
      registered_calls. simpl. by rewrite <- app_assoc.
  - by rewrite CoordinatorProofs.fan_out_full.
Qed.

Lemma login_failure_starts_reauth_and_returns_witness :
  _async_update_data [Raises PulseLoginException; Returns (true, ∅)] one_zone_updated =
  (log ((if config_entry one_zone_updated then [StartReauth] else [])
        ++ FanOut None :: registered_calls one_zone_updated)
     (set_last_update_success true
        (set_data None (set_last_exception None one_zone_updated))),
   Returned).
Proof.
  apply (login_failure_starts_reauth_and_returns [Returns (true, ∅)] one_zone_updated);
    reflexivity.
Defined.

(** An exception the loop has no clause of its own for ends the task with
    that same exception, and no further update is taken; before it leaves,
    the [finally] clause clears the Update Error, sets the Snapshot to None,
    marks the update successful and calls every registered listener. *)
Theorem unknown_exception_ends_task updates c ex :
  unclassified ex = true ->
  _shutdown_requested c = false ->
  hass_is_stopping c = false ->
  _async_update_data (Raises ex :: updates) c =
  (log (FanOut None :: registered_calls c)
     (set_last_update_success true (set_data None (set_last_exception None c))),
   Raised ex).
Proof.
  intros Hex Hs Hh. cbn [_async_update_data]. rewrite Hs, Hh. cbn [negb andb].
  destruct ex; try done;
    cbv [iteration try_except finally async_set_updated_data
         mbind M_bind mret M_ret modify raise];
    by rewrite CoordinatorProofs.fan_out_full.
Qed.

Lemma unknown_exception_ends_task_witness :
  _async_update_data [Raises (OtherException "RuntimeError"); Returns (true, ∅)]
    one_zone_updated =
  (log (FanOut None :: registered_calls one_zone_updated)
     (set_last_update_success true
        (set_data None (set_last_exception None one_zone_updated))),
   Raised (OtherException "RuntimeError")).
Proof.
  apply (unknown_exception_ends_task [Returns (true, ∅)] one_zone_updated
           (OtherException "RuntimeError")); reflexivity.
Defined.





(** ** Registration and the full refresh *)

(** Registrations followed by a fan-out with no snapshot: every
    registration is called, once each and in the order made, after the
    listeners that were registered before; a topic registered twice is
    called twice. *)
Theorem full_refresh_calls_every_registration regs c c' :
  data c = None ->
  register_all regs c = (c', Ok tt) ->
  async_update_listeners c' =
  (log (FanOut None :: registered_calls c
        ++ map (fun '(k, cb) => Call k cb) regs) c', Ok tt).
Proof.
  intros Hd Hrun.
  destruct (CoordinatorProofs.register_all_spec regs c)
    as (c'' & Hrun' & Hd' & _ & Hl & _).
  rewrite Hrun in Hrun'. injection Hrun' as <-.
  rewrite CoordinatorProofs.fan_out_full by congruence.
  unfold registered_calls. rewrite Hl, map_app, map_map.
  assert (map (fun x : string * CALLBACK_TYPE =>
                 let '(cb, context) := let '(k, cb) := x in (cb, k) in
                 Call context cb) regs
          = map (fun '(k, cb) => Call k cb) regs) as ->; [|done].
  apply map_ext. by intros [k cb].
Qed.

Lemma full_refresh_calls_every_registration_witness :
  async_update_listeners registered_twice =
  (log (FanOut None :: registered_calls (init true)
        ++ map (fun '(k, cb) => Call k cb) [(ALARM_CONTEXT, 1); (ALARM_CONTEXT, 2)])
     registered_twice, Ok tt).
Proof.
  apply (full_refresh_calls_every_registration
           [(ALARM_CONTEXT, 1); (ALARM_CONTEXT, 2)] (init true) registered_twice);
    vm_compute; reflexivity.
Defined.

Lemma run_of_retryable_failures_witness :
  exists c',
    _async_update_data
      (map Raises [PulseExceptionWithRetry None; PulseExceptionWithBackoff 30] ++ [])
      first_failure = _async_update_data [] c'
    /\ fan_outs (journal c') = fan_outs (journal first_failure)
                               + length [PulseExceptionWithRetry None;
                                         PulseExceptionWithBackoff 30]
    /\ last_update_success c' = false
    /\ data c' = None.
Proof.
  apply (CoordinatorProofs.run_of_retryable_failures
           [PulseExceptionWithRetry None; PulseExceptionWithBackoff 30] []
           first_failure).
  - by repeat constructor.
  - reflexivity.
  - reflexivity.
  - by vm_compute.
  - by vm_compute.
Defined.

End CoordinatorMoreProofs.

(** * Properties of start and stop *)

Module LifecycleProofs.
Import Coordinator Lifecycle.

Lemma start_with_task i t : _update_task i = Some t -> start i = (i, Ok tt).
Proof. intros Ht. cbv [start mbind M_bind get mret M_ret]. by rewrite Ht. Qed.

Lemma start_creates_task i :
  _update_task i = None ->
  config_entry (coordinator i) = true ->
  start i =
  ({| coordinator := coordinator i;
      _update_task := Some {| cancelled := false; cancel_requested := false |};
      background_tasks := S (background_tasks i) |}, Ok tt).
Proof.
  intros Ht Hce. cbv [start mbind M_bind get modify]. by rewrite Ht, Hce.
Qed.

Lemma start_not_ready i :
  _update_task i = None ->
  config_entry (coordinator i) = false ->
  start i = (i, Raise ConfigEntryNotReady).
Proof.
  intros Ht Hce. cbv [start mbind M_bind get raise]. by rewrite Ht, Hce.
Qed.

Lemma stop_without_task join i : _update_task i = None -> stop join i = (i, Ok tt).
Proof. intros Ht. cbv [stop mbind M_bind get mret M_ret]. by rewrite Ht. Qed.

Lemma stop_with_task join i t :
  _update_task i = Some t ->
  stop join i =
  match join (if cancelled t then t else cancel t) (coordinator i) with
  | (c', Ok _) =>
      ({| coordinator := c'; _update_task := None;
          background_tasks := background_tasks i |}, Ok tt)
  | (c', Raise e) =>
      ({| coordinator := c';
          _update_task := Some (if cancelled t then t else cancel t);
          background_tasks := background_tasks i |}, Raise e)
  end.
Proof.
  intros Ht. cbv [stop await_task mbind M_bind get modify when mret M_ret].
  rewrite Ht. destruct (cancelled t); cbn [negb _update_task coordinator
    background_tasks]; rewrite ?Ht;
    by destruct (join _ (coordinator i)) as [c' [[]|e]].
Qed.

(** [start] is idempotent: a second call changes nothing, whether the first
    one created the task, found one, or raised for want of a config
    entry. *)
Theorem start_idempotent i : (start;; start) i = start i.
Proof.
  unfold mbind, M_bind.
  destruct (_update_task i) as [t|] eqn:Ht.
  - rewrite (start_with_task i t Ht). by rewrite (start_with_task i t Ht).
  - destruct (config_entry (coordinator i)) eqn:Hce.
    + rewrite (start_creates_task i Ht Hce). by erewrite start_with_task.
    + by rewrite (start_not_ready i Ht Hce).
Qed.

(** [stop] is idempotent: once it has returned there is no task handle
    left and a second call does nothing; if it raised, it raised before the
    second call. *)
Theorem stop_idempotent join i : (stop join;; stop join) i = stop join i.
Proof.
  unfold mbind, M_bind.
  destruct (_update_task i) as [t|] eqn:Ht.
  - rewrite (stop_with_task join i t Ht).
    destruct (join _ (coordinator i)) as [c' [[]|e]]; [|done].
    by rewrite stop_without_task.
  - rewrite (stop_without_task join i Ht). by rewrite (stop_without_task join i Ht).
Qed.



(** When the awaited task ends without raising, [stop] clears the handle,
    and a [start] after it creates a fresh task if there is a config entry:
    stop followed by start restarts the loop. *)
Theorem stop_then_start_restarts join i t c' :
  _update_task i = Some t ->
  join (if cancelled t then t else cancel t) (coordinator i) = (c', Ok tt) ->
  config_entry c' = true ->
  (stop join;; start) i =
  ({| coordinator := c';
      _update_task := Some {| cancelled := false; cancel_requested := false |};
      background_tasks := S (background_tasks i) |}, Ok tt).
Proof.
  intros Ht Hjoin Hce. unfold mbind, M_bind.
  rewrite (stop_with_task join i t Ht), Hjoin.
  by rewrite start_creates_task.
Qed.

Lemma stop_then_start_restarts_witness :
  (stop returning;; start) (fst (start (service one_zone))) =
  ({| coordinator := one_zone;
      _update_task := Some {| cancelled := false; cancel_requested := false |};
      background_tasks := S (background_tasks (fst (start (service one_zone)))) |},
   Ok tt).
Proof.
  apply (stop_then_start_restarts returning (fst (start (service one_zone)))
           {| cancelled := false; cancel_requested := false |} one_zone).
  - by vm_compute.
  - by vm_compute.
  - by vm_compute.
Defined.

End LifecycleProofs.
